(** * valida_cnpj_receita.py: extraction, registry lookup and reconciliation

    A shallow embedding of [src/valida_cnpj_receita.py].  The script reads a
    spreadsheet, pulls CNPJ identifiers out of its cells with a regular
    expression, looks each one up in the public registry and reports, in
    four rows per identifier, whether the registry's values occur in the
    sheet.

    Conventions of the embedding:
    - a Python [str] is a [string] holding its UTF-8 encoding, under which
      concatenation and the substring test [in] agree with Python's on
      code points; a character is the byte sequence of one code point
      ([primeiro]), and [n_caracteres] counts characters as [len] does;
    - [str.lower], the [str()] of floats, lists and dicts and the class of
      decimal digits that [\d] matches in a [str] pattern are not
      re-implemented: the development is parametric in them, and
      [ascii_lower], [repr_vazio], [digito_ascii] and [digito_largo]
      instantiate them where a statement is evaluated on concrete data;
    - [[^0-9]] in [re.sub] is the ASCII range, as written;
    - what Python raises is data: computations that can raise live in the
      monad [resultado]; the exceptions are those deriving from
      [Exception], the class the script's handler names;
    - [requests.get] is a function from the URL to its outcome. *)

From Stdlib Require Import String Ascii List Bool ZArith Lia PrimFloat.
From Stdlib Require DecimalString.
From Equations Require Import Equations.
Import ListNotations.
Local Open Scope string_scope.
Local Open Scope list_scope.

(** ** Python values and exceptions *)

(** What [resposta.json()] can return: JSON null, booleans, integers,
    floats, strings, arrays and objects.  An object is the list of its
    items; [dict_lookup] reads the first binding of a key. *)
#[warnings="-register-all"]
Inductive pyval : Type :=
| PNone
| PBool (b : bool)
| PInt (z : Z)
| PFloat (f : float)
| PStr (s : string)
| PList (l : list pyval)
| PDict (itens : list (string * pyval)).

(** [type(v).__name__] *)
Definition type_name (v : pyval) : string :=
  match v with
  | PNone => "NoneType"
  | PBool _ => "bool"
  | PInt _ => "int"
  | PFloat _ => "float"
  | PStr _ => "str"
  | PList _ => "list"
  | PDict _ => "dict"
  end.

(** [bool(v)] *)
Definition truthy (v : pyval) : bool :=
  match v with
  | PNone => false
  | PBool b => b
  | PInt z => negb (z =? 0)%Z
  | PFloat f => negb (PrimFloat.eqb f 0%float)
  | PStr s => negb (s =? "")%string
  | PList l => match l with [] => false | _ :: _ => true end
  | PDict d => match d with [] => false | _ :: _ => true end
  end.

(** [a or b], both operands already evaluated. *)
Definition py_or (a b : pyval) : pyval := if truthy a then a else b.

(** [s or t] on two strings. *)
Definition str_or (s t : string) : string := if truthy (PStr s) then s else t.

Inductive excecao : Type :=
| AttributeError (tipo atributo : string)
| OutraExcecao (mensagem : string).

(** [str(e)] *)
Definition str_excecao (e : excecao) : string :=
  match e with
  | AttributeError t a =>
      ("'" ++ t ++ "' object has no attribute '" ++ a ++ "'")%string
  | OutraExcecao m => m
  end.

Inductive resultado (A : Type) : Type :=
| Ok (a : A)
| Raise (e : excecao).
Arguments Ok {A} a.
Arguments Raise {A} e.

Definition bind {A B : Type} (c : resultado A) (k : A -> resultado B)
  : resultado B :=
  match c with
  | Ok a => k a
  | Raise e => Raise e
  end.

Notation "x <- c ;; k" := (bind c (fun x => k))
  (at level 61, c at next level, right associativity).

Fixpoint dict_lookup (chave : string) (itens : list (string * pyval))
  : option pyval :=
  match itens with
  | [] => None
  | (k, v) :: resto =>
      if (k =? chave)%string then Some v else dict_lookup chave resto
  end.

(** [d.get(chave, padrao)]: only a dict has the method. *)
Definition get (d : pyval) (chave : string) (padrao : pyval)
  : resultado pyval :=
  match d with
  | PDict itens =>
      Ok (match dict_lookup chave itens with
          | Some v => v
          | None => padrao
          end)
  | _ => Raise (AttributeError (type_name d) "get")
  end.

(** ** Strings *)

(** [agulha in palheiro] *)
Fixpoint contem (agulha palheiro : string) : bool :=
  String.prefix agulha palheiro
  || match palheiro with
     | EmptyString => false
     | String _ resto => contem agulha resto
     end.

Definition is_digit (c : ascii) : bool :=
  let n := nat_of_ascii c in (48 <=? n)%nat && (n <=? 57)%nat.

(** [re.sub(r'[^0-9]', '', s)] *)
Fixpoint so_digitos (s : string) : string :=
  match s with
  | EmptyString => EmptyString
  | String c resto =>
      if is_digit c then String c (so_digitos resto) else so_digitos resto
  end.

(** The lowering of the letters A-Z, the instance of [str.lower] used on
    concrete data. *)
Definition ascii_lower_char (c : ascii) : ascii :=
  let n := nat_of_ascii c in
  if (65 <=? n)%nat && (n <=? 90)%nat then ascii_of_nat (n + 32) else c.

Fixpoint ascii_lower (s : string) : string :=
  match s with
  | EmptyString => EmptyString
  | String c resto => String (ascii_lower_char c) (ascii_lower resto)
  end.

(** [str(z)] for an integer. *)
Definition str_int (z : Z) : string :=
  DecimalString.NilZero.string_of_int (Z.to_int z).

(** ** Spreadsheet cells *)

(** A cell of [df.values] after [fillna("")].  The script reads a cell only
    through [str(celula)]; a cell that is neither text nor an integer
    carries that text. *)
Inductive celula : Type :=
| Texto (s : string)
| Inteiro (z : Z)
| Outro (texto : string).

Definition str (c : celula) : string :=
  match c with
  | Texto s => s
  | Inteiro z => str_int z
  | Outro t => t
  end.

Definition tabela : Type := list (list celula).

(** [df.values.flatten()] *)
Definition flatten (df : tabela) : list celula := concat df.

(** ** Characters *)

(** A Python [str] is held as its UTF-8 bytes, a well-formed sequence; a
    character of it is the byte sequence of one code point.  [largura c]
    is the number of bytes of the sequence that the lead byte [c] starts. *)
Definition largura (c : ascii) : nat :=
  let n := nat_of_ascii c in
  if (n <? 128)%nat then 1
  else if (n <? 224)%nat then 2
  else if (n <? 240)%nat then 3
  else 4.

(** The first [n] bytes of [s] and what follows them, when [s] has them. *)
Fixpoint corta (n : nat) (s : string) : option (string * string) :=
  match n with
  | 0 => Some (EmptyString, s)
  | S n' =>
      match s with
      | EmptyString => None
      | String c r =>
          match corta n' r with
          | Some (a, b) => Some (String c a, b)
          | None => None
          end
      end
  end.

(** The first character of [s] and what follows it. *)
Definition primeiro (s : string) : option (string * string) :=
  match s with
  | EmptyString => None
  | String c r =>
      match corta (largura c - 1) r with
      | Some (t, r') => Some (String c t, r')
      | None => None
      end
  end.

(** [s] without its first character. *)
Definition pula (s : string) : string :=
  match primeiro s with
  | Some (_, r) => r
  | None => EmptyString
  end.

(** The digit class of the ASCII range, [0-9], on a character. *)
Definition digito_ascii (ch : string) : bool :=
  match ch with
  | String c EmptyString => is_digit c
  | _ => false
  end.

(** ** Identifier extraction *)

(** The pieces the script's pattern is made of: [\d] and an escaped or
    plain literal character, each consuming one character. *)
Inductive atomo : Type :=
| Digito
| Lit (c : ascii).

(** [padrao = r'\d{2}\.\d{3}\.\d{3}/\d{4}-\d{2}'] *)
Definition padrao : list atomo :=
  repeat Digito 2 ++ [Lit "."] ++ repeat Digito 3 ++ [Lit "."]
  ++ repeat Digito 3 ++ [Lit "/"] ++ repeat Digito 4 ++ [Lit "-"]
  ++ repeat Digito 2.

Definition inspect {A : Type} (a : A) : {b : A | a = b} := exist _ a eq_refl.

Section Extracao.

(** The characters [\d] matches in a [str] pattern: the decimal digits of
    Unicode (category Nd), of which [0-9] are ten. *)
Variable digito : string -> bool.

Definition casa_atomo (a : atomo) (ch : string) : bool :=
  match a with
  | Digito => digito ch
  | Lit l => (ch =? String l EmptyString)%string
  end.

(** The pattern matched at the start of [s]: the matched text and what
    follows it. *)
Fixpoint casa_inicio (p : list atomo) (s : string) : option (string * string) :=
  match p with
  | [] => Some (EmptyString, s)
  | a :: p' =>
      match primeiro s with
      | None => None
      | Some (ch, s') =>
          if casa_atomo a ch then
            match casa_inicio p' s' with
            | Some (m, resto) => Some ((ch ++ m)%string, resto)
            | None => None
            end
          else None
      end
  end.

(** The whole of [m] matches [p]. *)
Fixpoint casa_toda (p : list atomo) (m : string) : bool :=
  match p with
  | [] => (m =? "")%string
  | a :: p' =>
      match primeiro m with
      | Some (ch, m') => casa_atomo a ch && casa_toda p' m'
      | None => false
      end
  end.

(** [re.findall(p, s)] for a pattern without groups: scan from the left;
    where the pattern matches, keep the match and go on after it (one
    character further when the match is empty); elsewhere move one
    character on.  The scan ends after trying the end of the string. *)
Equations? findall (p : list atomo) (s : string) : list string
  by wf (String.length s) lt :=
  findall p s with inspect (casa_inicio p s) => {
    | exist _ (Some (m, resto)) _ with m => {
        | EmptyString with s => {
            | EmptyString := [EmptyString];
            | String c s' := EmptyString :: findall p (pula (String c s')) };
        | String _ _ := m :: findall p resto };
    | exist _ None _ with s => {
        | EmptyString := [];
        | String c s' := findall p (pula (String c s')) } }.
Proof.
  (* the text left after a character, or after a non-empty match, is
     shorter *)
  all: clear findall.
  all: assert (C : forall k t u v, corta k t = Some (u, v) ->
                     String.length t = String.length u + String.length v)
    by (induction k as [|k IH]; intros t u v E; simpl in E;
        [ injection E as <- <-; reflexivity
        | destruct t as [|x t]; [discriminate|];
          destruct (corta k t) as [[u' v']|] eqn:E'; [|discriminate];
          injection E as <- <-; simpl; now rewrite (IH _ _ _ E') ]).
  all: assert (P : forall t u v, primeiro t = Some (u, v) ->
                     String.length t = String.length u + String.length v
                     /\ 0 < String.length u)
    by (intros t u v E; destruct t as [|x t]; [discriminate|];
        simpl in E;
        destruct (corta (largura x - 1) t) as [[u' v']|] eqn:E';
          [|discriminate];
        injection E as <- <-; simpl; rewrite (C _ _ _ _ E'); lia).
  - unfold pula.
    destruct (primeiro (String c s')) as [[u v]|] eqn:E;
      [apply P in E; simpl in *; lia | simpl; lia].
  - assert (L : forall x y, String.length (x ++ y)
                            = String.length x + String.length y)
      by (induction x as [|z x IHx]; intros y; simpl;
          [reflexivity | now rewrite IHx]).
    assert (H : forall q t u v, casa_inicio q t = Some (u, v) ->
                  String.length t = String.length u + String.length v).
    { induction q as [|b q IH]; intros t u v E; simpl in E.
      - injection E as <- <-. reflexivity.
      - destruct (primeiro t) as [[ch t']|] eqn:E1; [|discriminate].
        destruct (casa_atomo b ch); [|discriminate].
        destruct (casa_inicio q t') as [[u' v']|] eqn:E'; [|discriminate].
        injection E as <- <-. apply P in E1 as [E1 _].
        rewrite E1, (IH _ _ _ E'), L. lia. }
    match goal with E : casa_inicio _ _ = Some _ |- _ =>
      rewrite (H _ _ _ _ E) end.
    simpl; lia.
  - unfold pula.
    destruct (primeiro (String c s')) as [[u v]|] eqn:E;
      [apply P in E; simpl in *; lia | simpl; lia].
Qed.

(** [extrair_cnpj(texto)] *)
Definition extrair_cnpj (texto : celula) : list string :=
  findall padrao (str texto).

(** [cnpjs_encontrados] after the two nested loops over [df.values]. *)
Definition cnpjs_encontrados (df : tabela) : list string :=
  fold_left
    (fun encontrados linha =>
       fold_left
         (fun encontrados celula =>
            match extrair_cnpj celula with
            | [] => encontrados
            | cnpjs => encontrados ++ cnpjs
            end)
         linha encontrados)
    df [].

(** [cnpjs_unicos = list(set(cnpjs_encontrados))]: the same identifiers,
    each once, in an order the script does not control. *)
Definition cnpjs_unicos (df : tabela) (unicos : list string) : Prop :=
  NoDup unicos /\ forall c, In c unicos <-> In c (cnpjs_encontrados df).

End Extracao.

(** ** Registry lookup *)

(** What the script reads of a [requests] response: the status code and the
    outcome of [resposta.json()]. *)
Record resposta : Type := {
  status_code : Z;
  json : resultado pyval
}.

(** [requests.get(url, timeout=10)], by URL. *)
Definition rede : Type := string -> resultado resposta.

(** The dict [consultar_receita] returns, one field per key.  The key
    "CNPJ" always holds a string; the others hold what the payload gave. *)
Record receita : Type := {
  CNPJ : string;
  Razao_Social : pyval;
  Municipio : pyval;
  Situacao_Cadastral : pyval
}.

Definition url_de (cnpj : string) : string :=
  ("https://publica.cnpj.ws/cnpj/" ++ so_digitos cnpj)%string.

(** The chained expression bound to [municipio]. *)
Definition municipio_de (dados : pyval) : resultado pyval :=
  estabelecimento <- get dados "estabelecimento" (PDict []) ;;
  cidade <- get estabelecimento "cidade" (PDict []) ;;
  nome <- get cidade "nome" (PStr "") ;;
  if truthy nome then Ok nome
  else
    municipio <- get dados "municipio" (PStr "") ;;
    Ok (py_or municipio (PStr "")).

(** The body of the [try] block. *)
Definition consulta (www : rede) (cnpj : string) : resultado receita :=
  resposta <- www (url_de cnpj) ;;
  if (status_code resposta =? 200)%Z then
    dados <- json resposta ;;
    municipio <- municipio_de dados ;;
    razao <- get dados "razao_social" (PStr "") ;;
    situacao <- get dados "descricao_situacao_cadastral" (PStr "Ativo") ;;
    Ok {| CNPJ := str_or cnpj "";
          Razao_Social := py_or razao (PStr "");
          Municipio := municipio;
          Situacao_Cadastral := py_or situacao (PStr "") |}
  else
    Ok {| CNPJ := str_or cnpj "";
          Razao_Social := PStr "";
          Municipio := PStr "";
          Situacao_Cadastral := PStr "Não encontrado na Receita" |}.

(** [consultar_receita(cnpj)]: the [try] block with its handler. *)
Definition consultar_receita (www : rede) (cnpj : string) : receita :=
  match consulta www cnpj with
  | Ok r => r
  | Raise e =>
      {| CNPJ := str_or cnpj "";
         Razao_Social := PStr "";
         Municipio := PStr "";
         Situacao_Cadastral := PStr ("Erro: " ++ str_excecao e) |}
  end.

(** ** Reconciliation and report *)

(** A row of [resultados]: the keys "Informação" and "Confere". *)
Record linha : Type := {
  Informacao : string;
  Confere : string
}.

Definition sim_nao (b : bool) : string := if b then "Sim" else "Não".

(** [any(f(x) for x in xs)] when [f] can raise: stops at the first true
    element, and at the first element that raises. *)
Fixpoint any_m {A : Type} (f : A -> resultado bool) (xs : list A)
  : resultado bool :=
  match xs with
  | [] => Ok false
  | x :: resto => b <- f x ;; if b then Ok true else any_m f resto
  end.

(** [cnpj_confere]: both operands of [in] are strings, nothing raises. *)
Definition cnpj_confere (df : tabela) (cnpj_receita : string) : bool :=
  existsb (fun celula => contem cnpj_receita (str celula)) (flatten df).

Section Builtins.

(** [str.lower] *)
Variable lower : string -> string.
(** [str(v)] for a float, a list or a dict *)
Variable repr : pyval -> string.

(** [v.lower()]: only a string has the method. *)
Definition lower_de (v : pyval) : resultado string :=
  match v with
  | PStr s => Ok (lower s)
  | _ => Raise (AttributeError (type_name v) "lower")
  end.

(** [str(v)], as an f-string formats a value. *)
Definition str_valor (v : pyval) : string :=
  match v with
  | PStr s => s
  | PNone => "None"
  | PBool true => "True"
  | PBool false => "False"
  | PInt z => str_int z
  | _ => repr v
  end.

(** [any(v.lower() in str(celula).lower() for celula in ...) if v else
    False], the expression of [razao_confere] and [municipio_confere]. *)
Definition confere_sem_caixa (df : tabela) (v : pyval) : resultado bool :=
  if truthy v then
    any_m (fun celula =>
             agulha <- lower_de v ;;
             Ok (contem agulha (lower (str celula))))
          (flatten df)
  else Ok false.

Definition razao_confere (df : tabela) (razao_receita : pyval)
  : resultado bool :=
  confere_sem_caixa df razao_receita.

Definition municipio_confere (df : tabela) (municipio_receita : pyval)
  : resultado bool :=
  confere_sem_caixa df municipio_receita.

(** The body of the loop from the reading of [receita] on: the four keys
    (always present, so the defaults of [receita.get] play no part), the
    three verdicts, then four appends to [resultados]. *)
Definition confronta (df : tabela) (r : receita) (resultados : list linha)
  : resultado (list linha) :=
  let cnpj_receita := CNPJ r in
  let razao_receita := Razao_Social r in
  let municipio_receita := Municipio r in
  let situacao_receita := Situacao_Cadastral r in
  let cnpj_ok := cnpj_confere df cnpj_receita in
  razao_ok <- razao_confere df razao_receita ;;
  municipio_ok <- municipio_confere df municipio_receita ;;
  Ok (resultados
      ++ [ {| Informacao := "CNPJ: " ++ cnpj_receita;
              Confere := sim_nao cnpj_ok |} ]
      ++ [ {| Informacao :=
                "Razão Social: "
                ++ str_valor (py_or razao_receita (PStr "-"));
              Confere := sim_nao razao_ok |} ]
      ++ [ {| Informacao :=
                "Município: "
                ++ str_valor (py_or municipio_receita (PStr "-"));
              Confere := sim_nao municipio_ok |} ]
      ++ [ {| Informacao :=
                "Situação Cadastral: "
                ++ str_valor (py_or situacao_receita (PStr "-"));
              Confere := "" |} ]).

(** One turn of [for i, cnpj in enumerate(cnpjs_unicos)]. *)
Definition iteracao (www : rede) (df : tabela) (cnpj : string)
    (resultados : list linha) : resultado (list linha) :=
  confronta df (consultar_receita www cnpj) resultados.

(** The whole loop over the identifiers in the order [ordem], from the
    rows gathered so far. *)
Fixpoint laco (www : rede) (df : tabela) (ordem : list string)
    (resultados : list linha) : resultado (list linha) :=
  match ordem with
  | [] => Ok resultados
  | cnpj :: resto =>
      resultados' <- iteracao www df cnpj resultados ;;
      laco www df resto resultados'
  end.

(** [resultados] when the loop is over. *)
Definition resultados (www : rede) (df : tabela) (ordem : list string)
  : resultado (list linha) :=
  laco www df ordem [].

End Builtins.

(** An instance of [repr] for data without floats, lists and dicts. *)
Definition repr_vazio (_ : pyval) : string := "".

(** ** The extraction contract, in the specification's words *)

(** A run of exactly [n] ASCII digits. *)
Definition digitos (n : nat) (s : string) : Prop :=
  String.length s = n
  /\ Forall (fun c => is_digit c = true) (list_ascii_of_string s).

(** The identifier shape DD.DDD.DDD/DDDD-DD written with the digits 0-9. *)
Definition formato_cnpj (m : string) : Prop :=
  exists a b c d e,
    digitos 2 a /\ digitos 3 b /\ digitos 3 c /\ digitos 4 d /\ digitos 2 e
    /\ m = (a ++ "." ++ b ++ "." ++ c ++ "/" ++ d ++ "-" ++ e)%string.

(** [ch] is one whole character. *)
Definition caractere (ch : string) : Prop :=
  primeiro ch = Some (ch, EmptyString).

(** [s] is made of whole characters. *)
Inductive inteiro : string -> Prop :=
| inteiro_nil : inteiro EmptyString
| inteiro_cons (ch s : string) :
    caractere ch -> inteiro s -> inteiro (ch ++ s).

(** [m] occurs in [s]. *)
Definition ocorre_em (m s : string) : Prop :=
  exists p q, s = (p ++ m ++ q)%string.

(** [m] occurs in [s] at the position of a character. *)
Definition ocorre_no_caractere (m s : string) : Prop :=
  exists p q, s = (p ++ m ++ q)%string /\ inteiro p.

Section Contrato.

Variable digito : string -> bool.

(** A run of exactly [n] decimal digits, each one character. *)
Inductive digitos_de : nat -> string -> Prop :=
| digitos_de_0 : digitos_de 0 EmptyString
| digitos_de_S (ch : string) (n : nat) (s : string) :
    caractere ch -> digito ch = true -> digitos_de n s ->
    digitos_de (S n) (ch ++ s).

(** The identifier shape DD.DDD.DDD/DDDD-DD, D being any decimal digit of
    the class [digito]. *)
Definition formato (m : string) : Prop :=
  exists a b c d e,
    digitos_de 2 a /\ digitos_de 3 b /\ digitos_de 3 c /\ digitos_de 4 d
    /\ digitos_de 2 e
    /\ m = (a ++ "." ++ b ++ "." ++ c ++ "/" ++ d ++ "-" ++ e)%string.

(** [s] has an identifier at its very start. *)
Definition comeca_com_cnpj (s : string) : Prop :=
  exists m r, formato m /\ s = (m ++ r)%string.

(** [varredura s l]: [l] lists, from left to right, the identifiers of [s]
    that do not overlap: at each position either an identifier starts, is
    kept and the scan resumes after it, or none starts and the scan moves
    one character on. *)
Inductive varredura : string -> list string -> Prop :=
| varre_fim : varredura EmptyString []
| varre_acha (m r : string) (l : list string) :
    formato m -> varredura r l -> varredura (m ++ r) (m :: l)
| varre_passa (s : string) (l : list string) :
    s <> EmptyString -> ~ comeca_com_cnpj s -> varredura (pula s) l ->
    varredura s l.

End Contrato.

(** [len(s)]: the number of characters of [s]. *)
Equations? n_caracteres (s : string) : nat by wf (String.length s) lt :=
  n_caracteres EmptyString := 0;
  n_caracteres (String c r) := S (n_caracteres (pula (String c r))).
Proof.
  clear n_caracteres. unfold pula, primeiro.
  assert (C : forall k t u v, corta k t = Some (u, v) ->
                String.length v <= String.length t).
  { induction k as [|k IH]; intros t u v E; simpl in E.
    - injection E as <- <-. lia.
    - destruct t as [|x t]; [discriminate|].
      destruct (corta k t) as [[u' v']|] eqn:E'; [|discriminate].
      injection E as <- <-. apply IH in E'. simpl. lia. }
  destruct (corta (largura c - 1) r) as [[u v]|] eqn:E; simpl; [|lia].
  apply C in E. lia.
Qed.

(** A digit class that also holds the full-width digits U+FF10 to U+FF19,
    whose UTF-8 sequences are EF BC 90 to EF BC 99. *)
Definition digito_largo (ch : string) : bool :=
  digito_ascii ch
  || match ch with
     | String a (String b (String c EmptyString)) =>
         (nat_of_ascii a =? 239)%nat && (nat_of_ascii b =? 188)%nat
         && (144 <=? nat_of_ascii c)%nat && (nat_of_ascii c <=? 153)%nat
     | _ => false
     end.

(** ** The lookup contract, in the specification's words *)

(** The value under [chave] when [d] is an object that has the key. *)
Definition campo (d : pyval) (chave : string) : option pyval :=
  match d with
  | PDict itens => dict_lookup chave itens
  | _ => None
  end.

(** The nested field estabelecimento.cidade.nome, when the path exists. *)
Definition nome_aninhado (dados : pyval) : option pyval :=
  match campo dados "estabelecimento" with
  | Some estabelecimento =>
      match campo estabelecimento "cidade" with
      | Some cidade => campo cidade "nome"
      | None => None
      end
  | None => None
  end.

(** The first candidate that is present and truthy; the empty string when
    there is none. *)
Definition primeiro_nao_vazio (candidatos : list (option pyval)) : pyval :=
  fold_right
    (fun candidato resto =>
       match candidato with
       | Some v => if truthy v then v else resto
       | None => resto
       end)
    (PStr "") candidatos.

Definition municipio_esperado (dados : pyval) : pyval :=
  primeiro_nao_vazio [nome_aninhado dados; campo dados "municipio"].

(** The body is an object whose "estabelecimento", when present, is an
    object whose "cidade", when present, is an object. *)
Definition navegavel (dados : pyval) : bool :=
  match dados with
  | PDict _ =>
      match campo dados "estabelecimento" with
      | None => true
      | Some (PDict estabelecimento) =>
          match dict_lookup "cidade" estabelecimento with
          | None => true
          | Some (PDict _) => true
          | Some _ => false
          end
      | Some _ => false
      end
  | _ => false
  end.

(** An exception [e] is raised during the network call or while the
    response is parsed and read. *)
Inductive falha (www : rede) (cnpj : string) (e : excecao) : Prop :=
| falha_rede :
    www (url_de cnpj) = Raise e -> falha www cnpj e
| falha_json (r : resposta) :
    www (url_de cnpj) = Ok r -> status_code r = 200%Z ->
    json r = Raise e -> falha www cnpj e
| falha_leitura (r : resposta) (dados : pyval) :
    www (url_de cnpj) = Ok r -> status_code r = 200%Z ->
    json r = Ok dados -> municipio_de dados = Raise e -> falha www cnpj e.

(** The record of a failed lookup. *)
Definition receita_erro (cnpj : string) (e : excecao) : receita :=
  {| CNPJ := cnpj;
     Razao_Social := PStr "";
     Municipio := PStr "";
     Situacao_Cadastral := PStr ("Erro: " ++ str_excecao e) |}.

(** A network answering every request with status 200 and the parsed body
    [dados]. *)
Definition www_200 (dados : pyval) : rede :=
  fun _ => Ok {| status_code := 200; json := Ok dados |}.

(** ** The report contract, in the specification's words *)

(** The four rows of one identifier, in the fixed order identifier, legal
    name, municipality, status: the first three carry a verdict "Sim" or
    "Não", the last one the empty verdict. *)
Definition bloco_de (cnpj : string) (bloco : list linha) : Prop :=
  exists (v1 v2 v3 : bool) (i2 i3 i4 : string),
    bloco =
      [ {| Informacao := "CNPJ: " ++ cnpj; Confere := sim_nao v1 |};
        {| Informacao := "Razão Social: " ++ i2; Confere := sim_nao v2 |};
        {| Informacao := "Município: " ++ i3; Confere := sim_nao v3 |};
        {| Informacao := "Situação Cadastral: " ++ i4; Confere := "" |} ].

(** [v] is a Python string. *)
Definition tem_texto (v : pyval) : bool :=
  match v with
  | PStr _ => true
  | _ => false
  end.


(** ** The sheet before the extraction, and the script as a whole *)

(** [df.shape[1]] of a frame given by its rows (all of one length). *)
Definition n_colunas {A : Type} (df : list (list A)) : nat :=
  match df with
  | [] => 0
  | linha :: _ => List.length linha
  end.

(** [if df.shape[1] > 1: df = df.iloc[:, 1:]] *)
Definition sem_primeira_coluna {A : Type} (df : list (list A))
  : list (list A) :=
  if (1 <? n_colunas df)%nat then map (@tl A) df else df.

(** [df.fillna("")], a missing cell of the sheet being [None]. *)
Definition fillna (df : list (list (option celula))) : tabela :=
  map (map (fun c => match c with
                     | Some x => x
                     | None => Texto ""
                     end)) df.

(** The frame the rest of the script works on, from the frame as read. *)
Definition df_preparado (lido : list (list (option celula))) : tabela :=
  fillna (sem_primeira_coluna lido).

(** What the page shows after the extraction: the warning, or the count of
    the success message with the result table. *)
Inductive tela : Type :=
| Aviso
| Relatorio (n : nat) (linhas : list linha).

(** The block [if not cnpjs_unicos: ... else: ...], [unicos] being the list
    that [list(set(...))] gave. *)
Definition principal (lower : string -> string) (repr : pyval -> string)
    (www : rede) (df : tabela) (unicos : list string) : resultado tela :=
  match unicos with
  | [] => Ok Aviso
  | _ :: _ =>
      linhas <- resultados lower repr www df unicos ;;
      Ok (Relatorio (List.length unicos) linhas)
  end.

(** [v] is truthy and has no method [lower]. *)
Definition sem_lower (v : pyval) : bool := truthy v && negb (tem_texto v).

(** [v] is what [x or ""] can give: a truthy value or the empty string. *)
Definition normalizado (v : pyval) : Prop := truthy v = true \/ v = PStr "".

(** Every character of [s] is a digit. *)
Definition so_tem_digitos (s : string) : Prop :=
  Forall (fun c => is_digit c = true) (list_ascii_of_string s).

(** The first value on the path body, "estabelecimento", "cidade" that is
    there and is not an object. *)
Definition primeiro_nao_objeto (dados : pyval) : option pyval :=
  match dados with
  | PDict itens =>
      match dict_lookup "estabelecimento" itens with
      | None => None
      | Some (PDict estabelecimento) =>
          match dict_lookup "cidade" estabelecimento with
          | None => None
          | Some (PDict _) => None
          | Some cidade => Some cidade
          end
      | Some estabelecimento => Some estabelecimento
      end
  | _ => Some dados
  end.

(** * Properties *)

(** ** Strings *)

Lemma append_nil_r (s : string) : (s ++ "")%string = s.
Proof. induction s as [|c s IH]; simpl; [reflexivity | now rewrite IH]. Qed.

Lemma append_assoc (a b c : string) :
  ((a ++ b) ++ c)%string = (a ++ (b ++ c))%string.
Proof. induction a as [|x a IH]; simpl; [reflexivity | now rewrite IH]. Qed.

Lemma length_append (a b : string) :
  String.length (a ++ b) = String.length a + String.length b.
Proof. induction a as [|x a IH]; simpl; [reflexivity | now rewrite IH]. Qed.

Lemma append_inv_length (a b a' b' : string) :
  String.length a = String.length a' ->
  (a ++ b)%string = (a' ++ b')%string -> a = a' /\ b = b'.
Proof.
  revert a'. induction a as [|x a IH]; intros [|x' a'] L E;
    simpl in *; try discriminate.
  - now split.
  - injection E as -> E. injection L as L.
    destruct (IH _ L E) as [-> ->]. now split.
Qed.

(** [String.prefix] is [str.startswith]. *)
Lemma prefix_spec (a s : string) :
  String.prefix a s = true <-> exists q, s = (a ++ q)%string.
Proof.
  revert s. induction a as [|x a IH]; intros s.
  - destruct s; simpl; split; eauto.
  - destruct s as [|y s]; simpl.
    + split; [discriminate | intros [q E]; discriminate].
    + destruct (ascii_dec x y) as [->|N].
      * rewrite IH. split; intros [q E]; exists q; congruence.
      * split; [discriminate | intros [q E]; congruence].
Qed.

(** [contem] decides the substring relation. *)
Lemma contem_spec (a s : string) :
  contem a s = true <-> exists p q, s = (p ++ a ++ q)%string.
Proof.
  induction s as [|y s IH].
  - change (contem a "") with (String.prefix a "" || false).
    rewrite orb_false_r, prefix_spec. split.
    + intros [q E]. exists "", q. exact E.
    + intros [p [q E]]. destruct p; simpl in E; [eauto | discriminate].
  - change (contem a (String y s))
      with (String.prefix a (String y s) || contem a s).
    rewrite orb_true_iff, prefix_spec, IH. split.
    + intros [[q E] | [p [q E]]].
      * exists "", q. exact E.
      * exists (String y p), q. simpl. now rewrite E.
    + intros [[|x p] [q E]]; simpl in E.
      * left. eauto.
      * right. injection E as _ E. eauto.
Qed.

Lemma contem_refl (a : string) : contem a a = true.
Proof. apply contem_spec. exists "", "". simpl. now rewrite append_nil_r. Qed.

Lemma truthy_str (s : string) : truthy (PStr s) = false <-> s = "".
Proof.
  simpl. rewrite negb_false_iff. apply String.eqb_eq.
Qed.

Lemma str_or_id (s : string) : str_or s "" = s.
Proof.
  unfold str_or. destruct (truthy (PStr s)) eqn:E; [reflexivity|].
  symmetry. now apply truthy_str.
Qed.

(** ** Characters *)

Lemma corta_split (n : nat) (s a b : string) :
  corta n s = Some (a, b) -> s = (a ++ b)%string /\ String.length a = n.
Proof.
  revert s a b. induction n as [|n IH]; intros s a b E; simpl in E.
  - injection E as <- <-. now split.
  - destruct s as [|c s]; [discriminate|].
    destruct (corta n s) as [[a' b']|] eqn:E'; [|discriminate].
    injection E as <- <-. destruct (IH _ _ _ E') as [-> L].
    simpl. now rewrite L.
Qed.

Lemma corta_app (n : nat) (s a b r : string) :
  corta n s = Some (a, b) -> corta n (s ++ r) = Some (a, (b ++ r)%string).
Proof.
  revert s a b. induction n as [|n IH]; intros s a b E; simpl in E.
  - injection E as <- <-. reflexivity.
  - destruct s as [|c s]; [discriminate|].
    destruct (corta n s) as [[a' b']|] eqn:E'; [|discriminate].
    injection E as <- <-. simpl. now rewrite (IH _ _ _ E').
Qed.

Lemma corta_proprio (n : nat) (s a b : string) :
  corta n s = Some (a, b) -> corta n a = Some (a, EmptyString).
Proof.
  revert s a b. induction n as [|n IH]; intros s a b E; simpl in E.
  - injection E as <- <-. reflexivity.
  - destruct s as [|c s]; [discriminate|].
    destruct (corta n s) as [[a' b']|] eqn:E'; [|discriminate].
    injection E as <- <-. simpl. now rewrite (IH _ _ _ E').
Qed.

Lemma primeiro_split (s ch r : string) :
  primeiro s = Some (ch, r) -> s = (ch ++ r)%string /\ caractere ch.
Proof.
  destruct s as [|c s]; [discriminate|]. unfold caractere. simpl.
  destruct (corta (largura c - 1) s) as [[a b]|] eqn:E; [|discriminate].
  intros [= <- <-]. split.
  - simpl. now destruct (corta_split _ _ _ _ E) as [-> _].
  - simpl. now rewrite (corta_proprio _ _ _ _ E).
Qed.

Lemma primeiro_app (s ch r q : string) :
  primeiro s = Some (ch, r) ->
  primeiro (s ++ q) = Some (ch, (r ++ q)%string).
Proof.
  destruct s as [|c s]; [discriminate|]. simpl.
  destruct (corta (largura c - 1) s) as [[a b]|] eqn:E; [|discriminate].
  intros [= <- <-]. now rewrite (corta_app _ _ _ _ q E).
Qed.

Lemma primeiro_caractere (ch r : string) :
  caractere ch -> primeiro (ch ++ r) = Some (ch, r).
Proof. intros C. now rewrite (primeiro_app _ _ _ r C). Qed.

Lemma caractere_cons (ch : string) :
  caractere ch -> exists c t, ch = String c t.
Proof. destruct ch as [|c t]; [discriminate | eauto]. Qed.

Lemma caractere_ascii (c : ascii) :
  largura c = 1 -> caractere (String c EmptyString).
Proof. intros L. unfold caractere. simpl. now rewrite L. Qed.

Lemma pula_caractere (ch r : string) :
  caractere ch -> pula (ch ++ r) = r.
Proof. intros C. unfold pula. now rewrite primeiro_caractere. Qed.

Lemma inteiro_app (a b : string) :
  inteiro a -> inteiro b -> inteiro (a ++ b).
Proof.
  induction 1 as [|ch s C _ IH]; intros B; [exact B|].
  rewrite append_assoc. constructor; auto.
Qed.

Lemma inteiro_caractere (ch : string) : caractere ch -> inteiro ch.
Proof.
  intros C. rewrite <- (append_nil_r ch). constructor; [exact C|constructor].
Qed.

(** ** The pattern and the shape *)

Section Padrao.

Variable digito : string -> bool.

Lemma casa_inicio_iff (p : list atomo) (s m r : string) :
  casa_inicio digito p s = Some (m, r) <->
  casa_toda digito p m = true /\ s = (m ++ r)%string.
Proof.
  revert s m. induction p as [|a p IH]; intros s m; simpl.
  - split.
    + intros [= <- <-]. now split.
    + intros [M ->]. apply String.eqb_eq in M. now subst m.
  - split.
    + destruct (primeiro s) as [[ch s']|] eqn:P; [|discriminate].
      destruct (casa_atomo digito a ch) eqn:A; [|discriminate].
      destruct (casa_inicio digito p s') as [[m' r']|] eqn:E; [|discriminate].
      intros [= <- <-]. apply IH in E as [M ->].
      apply primeiro_split in P as [-> C].
      rewrite (primeiro_caractere _ _ C), A, M.
      split; [reflexivity | now rewrite append_assoc].
    + intros [M ->].
      destruct (primeiro m) as [[ch m']|] eqn:P; [|discriminate].
      apply andb_prop in M as [A M].
      rewrite (primeiro_app _ _ _ r P), A.
      rewrite (proj2 (IH (m' ++ r)%string m') (conj M eq_refl)).
      now destruct (primeiro_split _ _ _ P) as [<- _].
Qed.

Lemma casa_toda_app (p1 p2 : list atomo) (m : string) :
  casa_toda digito (p1 ++ p2) m = true <->
  exists m1 m2,
    m = (m1 ++ m2)%string
    /\ casa_toda digito p1 m1 = true /\ casa_toda digito p2 m2 = true.
Proof.
  revert m. induction p1 as [|a p1 IH]; intros m; simpl.
  - split.
    + intros M. now exists EmptyString, m.
    + intros [m1 [m2 [-> [E M]]]]. apply String.eqb_eq in E. now subst m1.
  - split.
    + destruct (primeiro m) as [[ch m']|] eqn:P; [|discriminate].
      intros M. apply andb_prop in M as [A M].
      apply IH in M as [m1 [m2 [-> [M1 M2]]]].
      apply primeiro_split in P as [-> C].
      exists (ch ++ m1)%string, m2.
      rewrite (primeiro_caractere _ _ C), A, M1, append_assoc. auto.
    + intros [m1 [m2 [-> [M1 M2]]]].
      destruct (primeiro m1) as [[ch m']|] eqn:P; [|discriminate].
      apply andb_prop in M1 as [A M1].
      rewrite (primeiro_app _ _ _ m2 P), A. apply IH. eauto.
Qed.

Lemma casa_toda_digitos (n : nat) (a : string) :
  casa_toda digito (repeat Digito n) a = true <-> digitos_de digito n a.
Proof.
  revert a. induction n as [|n IH]; intros a; simpl.
  - split.
    + intros E. apply String.eqb_eq in E. subst a. constructor.
    + intros D. inversion D. reflexivity.
  - split.
    + destruct (primeiro a) as [[ch a']|] eqn:P; [|discriminate].
      intros M. apply andb_prop in M as [A M].
      apply primeiro_split in P as [-> C].
      constructor; [exact C | exact A | now apply IH].
    + intros D. inversion D as [|ch n' s C A D' E1 E2]; subst.
      rewrite (primeiro_caractere _ _ C), A. now apply IH.
Qed.

Lemma casa_toda_lit (l : ascii) (x : string) :
  largura l = 1 ->
  (casa_toda digito [Lit l] x = true <-> x = String l EmptyString).
Proof.
  intros L. simpl. split.
  - destruct (primeiro x) as [[ch x']|] eqn:P; [|discriminate].
    intros M. apply andb_prop in M as [A M].
    apply String.eqb_eq in A, M. subst.
    now destruct (primeiro_split _ _ _ P) as [-> _].
  - intros ->. rewrite (caractere_ascii l L). simpl.
    now rewrite Ascii.eqb_refl.
Qed.

(** The pattern of the script accepts exactly the shape DD.DDD.DDD/DDDD-DD. *)
Lemma casa_toda_padrao (m : string) :
  casa_toda digito padrao m = true <-> formato digito m.
Proof.
  unfold padrao, formato. split.
  - intros M.
    apply casa_toda_app in M as [a [m1 [-> [A M]]]].
    apply casa_toda_app in M as [p1 [m2 [-> [P1 M]]]].
    apply casa_toda_app in M as [b [m3 [-> [B M]]]].
    apply casa_toda_app in M as [p2 [m4 [-> [P2 M]]]].
    apply casa_toda_app in M as [c [m5 [-> [C M]]]].
    apply casa_toda_app in M as [p3 [m6 [-> [P3 M]]]].
    apply casa_toda_app in M as [d [m7 [-> [D M]]]].
    apply casa_toda_app in M as [p4 [e [-> [P4 E]]]].
    apply casa_toda_lit in P1, P2, P3, P4; try reflexivity. subst.
    apply casa_toda_digitos in A, B, C, D, E.
    exists a, b, c, d, e. repeat (split; [assumption|]). reflexivity.
  - intros [a [b [c [d [e [A [B [C [D [E ->]]]]]]]]]].
    apply casa_toda_digitos in A, B, C, D, E.
    apply casa_toda_app. exists a. eexists. split; [reflexivity|].
    split; [exact A|].
    apply (casa_toda_app [Lit "."]). exists ".", (b ++ "." ++ c ++ "/" ++ d ++ "-" ++ e)%string.
    split; [reflexivity|]. split; [reflexivity|].
    apply casa_toda_app. exists b. eexists. split; [reflexivity|].
    split; [exact B|].
    apply (casa_toda_app [Lit "."]). exists ".", (c ++ "/" ++ d ++ "-" ++ e)%string.
    split; [reflexivity|]. split; [reflexivity|].
    apply casa_toda_app. exists c. eexists. split; [reflexivity|].
    split; [exact C|].
    apply (casa_toda_app [Lit "/"]). exists "/", (d ++ "-" ++ e)%string.
    split; [reflexivity|]. split; [reflexivity|].
    apply casa_toda_app. exists d. eexists. split; [reflexivity|].
    split; [exact D|].
    apply (casa_toda_app [Lit "-"]). exists "-", e.
    split; [reflexivity|]. split; [reflexivity | exact E].
Qed.

Lemma digitos_de_inteiro (n : nat) (a : string) :
  digitos_de digito n a -> inteiro a.
Proof. induction 1; constructor; assumption. Qed.

Lemma formato_inteiro (m : string) : formato digito m -> inteiro m.
Proof.
  intros [a [b [c [d [e [A [B [C [D [E ->]]]]]]]]]].
  apply digitos_de_inteiro in A, B, C, D, E.
  assert (L : forall l, largura l = 1 -> inteiro (String l EmptyString))
    by (intros l H; now apply inteiro_caractere, caractere_ascii).
  repeat (apply inteiro_app;
          [first [assumption | apply L; reflexivity]|]).
  exact E.
Qed.

Lemma formato_cons (m : string) :
  formato digito m -> exists c m', m = String c m'.
Proof.
  intros [a [b [c [d [e [A [_ [_ [_ [_ ->]]]]]]]]]].
  inversion A as [|ch n s C _ _]; subst.
  destruct (caractere_cons _ C) as [x [t ->]]. simpl. eauto.
Qed.

Lemma casa_inicio_padrao (s m r : string) :
  casa_inicio digito padrao s = Some (m, r) <->
  formato digito m /\ s = (m ++ r)%string.
Proof. now rewrite casa_inicio_iff, casa_toda_padrao. Qed.

Lemma casa_inicio_padrao_none (s : string) :
  casa_inicio digito padrao s = None <-> ~ comeca_com_cnpj digito s.
Proof.
  split.
  - intros E [m [r [F ->]]].
    assert (X : casa_inicio digito padrao (m ++ r) = Some (m, r))
      by now apply casa_inicio_padrao.
    congruence.
  - intros N. destruct (casa_inicio digito padrao s) as [[m r]|] eqn:E;
      [|reflexivity].
    apply casa_inicio_padrao in E as [F ->].
    exfalso. apply N. now exists m, r.
Qed.

(** ** The scan of [findall] *)

Lemma findall_acha (p : list atomo) (s : string) (c : ascii) (m r : string) :
  casa_inicio digito p s = Some (String c m, r) ->
  findall digito p s = String c m :: findall digito p r.
Proof.
  intros E. funelim (findall digito p s); try congruence.
  all: match goal with H : casa_inicio _ _ _ = _ |- _ => rewrite H in E end.
  all: congruence.
Qed.

Lemma findall_passa (p : list atomo) (c : ascii) (s : string) :
  casa_inicio digito p (String c s) = None ->
  findall digito p (String c s) = findall digito p (pula (String c s)).
Proof.
  intros E. funelim (findall digito p (String c s)); congruence.
Qed.

Lemma findall_fim (p : list atomo) :
  casa_inicio digito p EmptyString = None ->
  findall digito p EmptyString = [].
Proof.
  intros E. funelim (findall digito p EmptyString); congruence.
Qed.

Lemma pula_menor (c : ascii) (s : string) :
  String.length (pula (String c s)) < String.length (String c s).
Proof.
  unfold pula. destruct (primeiro (String c s)) as [[ch r]|] eqn:P.
  - apply primeiro_split in P as [E C]. rewrite E, length_append.
    destruct (caractere_cons _ C) as [x [t ->]]. simpl. lia.
  - simpl. lia.
Qed.

Lemma findall_varredura (s : string) :
  varredura digito s (findall digito padrao s).
Proof.
  remember (String.length s) as n eqn:L. revert s L.
  induction n as [n IH] using lt_wf_ind. intros s ->.
  destruct (casa_inicio digito padrao s) as [[m r]|] eqn:E.
  - pose proof E as E0.
    apply casa_inicio_padrao in E as [F ->].
    destruct (formato_cons _ F) as [c [m' ->]].
    rewrite (findall_acha _ _ _ _ _ E0).
    apply varre_acha; [exact F|].
    apply (IH (String.length r)); [|reflexivity].
    rewrite length_append. simpl. lia.
  - destruct s as [|c s].
    + rewrite (findall_fim _ E). constructor.
    + rewrite (findall_passa _ _ _ E).
      apply varre_passa;
        [discriminate | now apply casa_inicio_padrao_none|].
      apply (IH (String.length (pula (String c s))));
        [apply pula_menor | reflexivity].
Qed.

Lemma varredura_findall (s : string) (l : list string) :
  varredura digito s l -> l = findall digito padrao s.
Proof.
  induction 1 as [|m r l F _ IH|s l N C _ IH].
  - symmetry. now apply findall_fim.
  - destruct (formato_cons _ F) as [c [m' ->]].
    rewrite (findall_acha padrao _ c m' r); [now rewrite IH|].
    now apply casa_inicio_padrao.
  - destruct s as [|c s]; [congruence|].
    rewrite findall_passa; [exact IH|].
    now apply casa_inicio_padrao_none.
Qed.

Lemma varredura_vazia (l : list string) :
  varredura digito EmptyString l -> l = [].
Proof.
  intros V. apply varredura_findall in V. rewrite V.
  now apply findall_fim.
Qed.

Lemma varredura_elementos (s : string) (l : list string) :
  varredura digito s l ->
  Forall (fun m => formato digito m /\ ocorre_no_caractere m s) l.
Proof.
  induction 1 as [|m r l F _ IH|s l N C V IH].
  - constructor.
  - constructor.
    + split; [exact F|]. exists EmptyString, r. split; [reflexivity|constructor].
    + eapply Forall_impl; [|exact IH].
      intros x [Fx [p [q [-> I]]]]. split; [exact Fx|].
      exists (m ++ p)%string, q. split; [now rewrite append_assoc|].
      apply inteiro_app; [now apply formato_inteiro | exact I].
  - destruct (primeiro s) as [[ch r]|] eqn:P.
    + assert (E : pula s = r) by (unfold pula; now rewrite P).
      apply primeiro_split in P as [-> K]. rewrite E in IH.
      eapply Forall_impl; [|exact IH].
      intros x [Fx [p [q [-> I]]]]. split; [exact Fx|].
      exists (ch ++ p)%string, q. split; [now rewrite append_assoc|].
      now constructor.
    + assert (E : pula s = EmptyString) by (unfold pula; now rewrite P).
      rewrite E in V. apply varredura_vazia in V. subst l. constructor.
Qed.

Lemma ocorre_no_caractere_ocorre (m s : string) :
  ocorre_no_caractere m s -> ocorre_em m s.
Proof. intros [p [q [E _]]]. now exists p, q. Qed.

Lemma varredura_nada (s : string) (l : list string) :
  varredura digito s l -> l = [] ->
  forall p r, s = (p ++ r)%string -> inteiro p ->
              ~ comeca_com_cnpj digito r.
Proof.
  induction 1 as [|m r l F _ _|s l N C _ IH]; intros L p q E I.
  - destruct p; [|discriminate]. simpl in E. subst q.
    intros [m [r [F E]]]. destruct (formato_cons _ F) as [c [m' ->]].
    discriminate E.
  - discriminate L.
  - destruct I as [|ch p' K I].
    + simpl in E. now subst q.
    + subst s. rewrite append_assoc, (pula_caractere _ _ K) in IH.
      now apply (IH L p' q).
Qed.

End Padrao.

(** ** The shape written with the digits 0-9 *)

Lemma digitos_S (n : nat) (s : string) :
  digitos (S n) s <->
  exists c s', s = String c s' /\ is_digit c = true /\ digitos n s'.
Proof.
  unfold digitos. split.
  - intros [L F]. destruct s as [|c s]; [discriminate|].
    simpl in L, F. inversion F; subst. injection L as L.
    exists c, s. repeat split; assumption.
  - intros [c [s' [-> [D [L F]]]]]. simpl. split; [now rewrite L|].
    now constructor.
Qed.

Lemma digitos_0 (s : string) : digitos 0 s <-> s = "".
Proof.
  unfold digitos. split.
  - intros [L _]. now destruct s.
  - intros ->. split; [reflexivity | constructor].
Qed.

Lemma is_digit_largura (c : ascii) : is_digit c = true -> largura c = 1.
Proof.
  unfold is_digit, largura. intros D. apply andb_prop in D as [_ D].
  apply Nat.leb_le in D.
  destruct (nat_of_ascii c <? 128)%nat eqn:L; [reflexivity|].
  apply Nat.ltb_ge in L. lia.
Qed.

Lemma digitos_digitos_de (digito : string -> bool) (n : nat) (a : string) :
  (forall c, is_digit c = true -> digito (String c EmptyString) = true) ->
  digitos n a -> digitos_de digito n a.
Proof.
  intros H. revert a. induction n as [|n IH]; intros a D.
  - apply digitos_0 in D. subst a. constructor.
  - apply digitos_S in D as [c [s' [-> [Dc D]]]].
    apply (digitos_de_S digito (String c EmptyString) n s').
    + now apply caractere_ascii, is_digit_largura.
    + now apply H.
    + now apply IH.
Qed.

(** An identifier written with the digits 0-9 has the shape for every digit
    class that holds them. *)
Lemma formato_cnpj_formato (digito : string -> bool) (m : string) :
  (forall c, is_digit c = true -> digito (String c EmptyString) = true) ->
  formato_cnpj m -> formato digito m.
Proof.
  intros H [a [b [c [d [e [A [B [C [D [E ->]]]]]]]]]].
  exists a, b, c, d, e.
  repeat (split; [now apply digitos_digitos_de|]). reflexivity.
Qed.

(** C9. Whatever the class of decimal digits [\d] stands for,
    [extrair_cnpj] is a total function of the cell (nothing in it can
    raise), and its value is exactly the left-to-right scan of the cell's
    text for non-overlapping identifiers of the shape DD.DDD.DDD/DDDD-DD:
    it satisfies the scan relation, it is the only list that does, each
    element has the shape and occurs in the text, and the list is empty
    when no part of the text has the shape. *)
Theorem extrair_cnpj_varredura (digito : string -> bool) (texto : celula) :
  varredura digito (str texto) (extrair_cnpj digito texto)
  /\ (forall l, varredura digito (str texto) l ->
                l = extrair_cnpj digito texto)
  /\ Forall (fun m => formato digito m /\ ocorre_em m (str texto))
            (extrair_cnpj digito texto)
  /\ ((forall m, ocorre_em m (str texto) -> ~ formato digito m) ->
      extrair_cnpj digito texto = []).
Proof.
  unfold extrair_cnpj.
  pose proof (findall_varredura digito (str texto)) as V.
  assert (E : Forall (fun m => formato digito m /\ ocorre_em m (str texto))
                     (findall digito padrao (str texto))).
  { eapply Forall_impl; [|exact (varredura_elementos _ _ _ V)].
    intros m [F O]. split; [exact F | now apply ocorre_no_caractere_ocorre]. }
  repeat split; try assumption.
  - apply varredura_findall.
  - intros N. destruct (findall digito padrao (str texto)) as [|m l];
      [reflexivity|].
    inversion E as [|? ? [F O] _]; subst.
    now destruct (N m O).
Qed.

(** With the digits 0-9 alone, and with the full-width digits besides: the
    same text, scanned character by character. *)
Example extrair_cnpj_ascii :
  extrair_cnpj digito_ascii
    (Texto "São Paulo, 12.345.678/0001-95 e １２.３４５.６７８/０００１-９５")
  = ["12.345.678/0001-95"].
Proof. reflexivity. Qed.

Example extrair_cnpj_largo :
  extrair_cnpj digito_largo
    (Texto "São Paulo, 12.345.678/0001-95 e １２.３４５.６７８/０００１-９５")
  = ["12.345.678/0001-95"; "１２.３４５.６７８/０００１-９５"].
Proof. reflexivity. Qed.

(** ** The identifiers of a table *)

Section Tabela.

Variable digito : string -> bool.

Lemma cnpjs_linha_In (linha : list celula) (acc : list string) (c : string) :
  In c (fold_left
          (fun encontrados celula =>
             match extrair_cnpj digito celula with
             | [] => encontrados
             | cnpjs => encontrados ++ cnpjs
             end) linha acc)
  <-> In c acc
      \/ exists celula, In celula linha /\ In c (extrair_cnpj digito celula).
Proof.
  revert acc. induction linha as [|x linha IH]; intros acc; simpl.
  - split; [auto | intros [H | [? [[] _]]]; exact H].
  - rewrite IH. destruct (extrair_cnpj digito x) as [|y ys] eqn:E.
    + split.
      * intros [H | [k [H1 H2]]]; [auto | right; eauto].
      * intros [H | [k [[<- | H1] H2]]]; [auto | | right; eauto].
        rewrite E in H2. destruct H2.
    + rewrite in_app_iff. split.
      * intros [[H | H] | [k [H1 H2]]]; [auto | | right; eauto].
        right. exists x. rewrite E. auto.
      * intros [H | [k [[<- | H1] H2]]]; [auto | | right; eauto].
        rewrite E in H2. auto.
Qed.

Lemma cnpjs_encontrados_In (df : tabela) (c : string) :
  In c (cnpjs_encontrados digito df) <->
  exists linha celula,
    In linha df /\ In celula linha /\ In c (extrair_cnpj digito celula).
Proof.
  unfold cnpjs_encontrados.
  enough (G : forall acc,
    In c (fold_left
            (fun encontrados linha =>
               fold_left
                 (fun encontrados celula =>
                    match extrair_cnpj digito celula with
                    | [] => encontrados
                    | cnpjs => encontrados ++ cnpjs
                    end) linha encontrados) df acc)
    <-> In c acc \/ exists linha celula,
          In linha df /\ In celula linha
          /\ In c (extrair_cnpj digito celula)).
  { rewrite G. simpl. tauto. }
  induction df as [|l df IH]; intros acc; simpl.
  - split; [auto | intros [H | [? [? [[] _]]]]; exact H].
  - rewrite IH, cnpjs_linha_In. split.
    + intros [[H | [k [H1 H2]]] | [l' [k [H1 [H2 H3]]]]].
      * auto.
      * right. exists l, k. auto.
      * right. exists l', k. auto.
    + intros [H | [l' [k [[<- | H1] [H2 H3]]]]].
      * auto.
      * left. right. eauto.
      * right. exists l', k. auto.
Qed.

End Tabela.

(** ** The registry lookup *)

Lemma municipio_de_dict (dados m : pyval) :
  municipio_de dados = Ok m -> exists itens, dados = PDict itens.
Proof.
  destruct dados; simpl; try discriminate. eauto.
Qed.

Lemma municipio_de_navegavel (dados : pyval) :
  navegavel dados = true ->
  municipio_de dados = Ok (municipio_esperado dados).
Proof.
  destruct dados as [| | | | | |itens]; try discriminate.
  unfold navegavel, municipio_de, municipio_esperado, nome_aninhado.
  cbn [campo get bind primeiro_nao_vazio fold_right].
  destruct (dict_lookup "estabelecimento" itens) as [e|] eqn:E.
  - destruct e as [| | | | | |est]; try discriminate.
    cbn [campo get bind].
    destruct (dict_lookup "cidade" est) as [c|] eqn:C.
    + destruct c as [| | | | | |cid]; try discriminate. intros _.
      cbn [campo get bind].
      destruct (dict_lookup "nome" cid) as [n|]; cbn [truthy].
      * destruct (truthy n); [reflexivity|].
        destruct (dict_lookup "municipio" itens) as [v|]; reflexivity.
      * simpl. destruct (dict_lookup "municipio" itens) as [v|]; reflexivity.
    + intros _. simpl.
      destruct (dict_lookup "municipio" itens) as [v|]; reflexivity.
  - intros _. simpl.
    destruct (dict_lookup "municipio" itens) as [v|]; reflexivity.
Qed.

Lemma municipio_de_nao_navegavel (dados : pyval) :
  navegavel dados = false ->
  exists t, municipio_de dados = Raise (AttributeError t "get").
Proof.
  destruct dados as [| | | | | |itens]; simpl;
    try (intros _; eexists; reflexivity).
  unfold municipio_de. cbn [get bind].
  destruct (dict_lookup "estabelecimento" itens) as [e|] eqn:E;
    [|discriminate].
  destruct e as [| | | | | |est]; cbn [get bind type_name];
    try (intros _; eexists; reflexivity).
  destruct (dict_lookup "cidade" est) as [c|] eqn:C; [|discriminate].
  destruct c as [| | | | | |cid]; cbn [get bind type_name];
    try (intros _; eexists; reflexivity).
  discriminate.
Qed.

(** The [try] block raises exactly when the call, the parse or the reading
    of the body does. *)
Lemma consulta_raise (www : rede) (cnpj : string) (e : excecao) :
  consulta www cnpj = Raise e <-> falha www cnpj e.
Proof.
  unfold consulta. split.
  - destruct (www (url_de cnpj)) as [r|e0] eqn:W; cbn [bind].
    + destruct (status_code r =? 200)%Z eqn:S; [|discriminate].
      apply Z.eqb_eq in S.
      destruct (json r) as [dados|e1] eqn:J; cbn [bind].
      * destruct (municipio_de dados) as [m|e2] eqn:M; cbn [bind].
        -- destruct (municipio_de_dict _ _ M) as [itens ->].
           discriminate.
        -- intros [= ->]. eapply falha_leitura; eassumption.
      * intros [= ->]. eapply falha_json; eassumption.
    + intros [= ->]. now apply falha_rede.
  - intros [W | r W S J | r dados W S J M]; rewrite W; cbn [bind];
      [reflexivity | |]; rewrite S, J; cbn [Z.eqb Pos.eqb bind];
      [reflexivity|]. rewrite M. reflexivity.
Qed.

Lemma consultar_receita_200 (www : rede) (cnpj : string) (r : resposta)
    (itens : list (string * pyval)) :
  www (url_de cnpj) = Ok r -> status_code r = 200%Z ->
  json r = Ok (PDict itens) -> navegavel (PDict itens) = true ->
  consultar_receita www cnpj =
    {| CNPJ := cnpj;
       Razao_Social :=
         py_or match dict_lookup "razao_social" itens with
               | Some v => v
               | None => PStr ""
               end (PStr "");
       Municipio := municipio_esperado (PDict itens);
       Situacao_Cadastral :=
         py_or match dict_lookup "descricao_situacao_cadastral" itens with
               | Some v => v
               | None => PStr "Ativo"
               end (PStr "") |}.
Proof.
  intros W S J N. unfold consultar_receita, consulta.
  rewrite W. cbn [bind]. rewrite S, J. cbn [Z.eqb Pos.eqb bind].
  rewrite (municipio_de_navegavel _ N). cbn [bind get].
  now rewrite str_or_id.
Qed.

Lemma consultar_receita_falha (www : rede) (cnpj : string) (e : excecao) :
  falha www cnpj e -> consultar_receita www cnpj = receita_erro cnpj e.
Proof.
  intros F. apply consulta_raise in F. unfold consultar_receita.
  rewrite F. unfold receita_erro. now rewrite str_or_id.
Qed.

(** C1 (as amended). For a 200-status response whose parsed body is an
    object on which the municipality lookup does not raise: when the body
    lacks the key descricao_situacao_cadastral the status field is "Ativo";
    when the body maps the key to a value, the status field is that value
    if it is truthy and the empty string otherwise, so a key mapped to the
    empty string gives the empty string. *)
Theorem situacao_cadastral_padrao (www : rede) (cnpj : string) (r : resposta)
    (itens : list (string * pyval)) :
  www (url_de cnpj) = Ok r -> status_code r = 200%Z ->
  json r = Ok (PDict itens) -> navegavel (PDict itens) = true ->
  (dict_lookup "descricao_situacao_cadastral" itens = None ->
   Situacao_Cadastral (consultar_receita www cnpj) = PStr "Ativo")
  /\ (forall v, dict_lookup "descricao_situacao_cadastral" itens = Some v ->
      Situacao_Cadastral (consultar_receita www cnpj)
      = if truthy v then v else PStr "")
  /\ (dict_lookup "descricao_situacao_cadastral" itens = Some (PStr "") ->
      Situacao_Cadastral (consultar_receita www cnpj) = PStr "").
Proof.
  intros W S J N. rewrite (consultar_receita_200 _ _ _ _ W S J N).
  cbn [Situacao_Cadastral]. repeat split.
  - intros ->. reflexivity.
  - intros v ->. reflexivity.
  - intros ->. reflexivity.
Qed.

Lemma situacao_cadastral_padrao_witness :
  www_200 (PDict [("razao_social", PStr "ACME LTDA")])
          (url_de "12.345.678/0001-95")
  = Ok {| status_code := 200;
          json := Ok (PDict [("razao_social", PStr "ACME LTDA")]) |}
  /\ Situacao_Cadastral
       (consultar_receita
          (www_200 (PDict [("razao_social", PStr "ACME LTDA")]))
          "12.345.678/0001-95")
     = PStr "Ativo".
Proof.
  split; [reflexivity|].
  exact (proj1 (situacao_cadastral_padrao
                  (www_200 (PDict [("razao_social", PStr "ACME LTDA")]))
                  "12.345.678/0001-95" _ _
                  eq_refl eq_refl eq_refl eq_refl) eq_refl).
Defined.

(** C1, as stated, fails: a body that maps descricao_situacao_cadastral to
    the empty string gives the empty status, not "Ativo"; and a body that
    lacks the key but holds a null "estabelecimento" gives an error status. *)
Lemma situacao_cadastral_vazia_counterexample :
  dict_lookup "descricao_situacao_cadastral"
    [("descricao_situacao_cadastral", PStr "")] = Some (PStr "")
  /\ Situacao_Cadastral
       (consultar_receita
          (www_200 (PDict [("descricao_situacao_cadastral", PStr "")]))
          "12.345.678/0001-95")
     = PStr ""
  /\ dict_lookup "descricao_situacao_cadastral"
       [("estabelecimento", PNone)] = None
  /\ Situacao_Cadastral
       (consultar_receita
          (www_200 (PDict [("estabelecimento", PNone)]))
          "12.345.678/0001-95")
     = PStr "Erro: 'NoneType' object has no attribute 'get'".
Proof. repeat split. Qed.

(** C4 (as amended). For a 200-status response with parsed body [dados]:
    when [dados] is an object whose "estabelecimento", if present, is an
    object whose "cidade", if present, is an object, the municipality field
    is the first truthy value among estabelecimento.cidade.nome, the
    top-level municipio and the empty string; for every other shape the
    chained lookup raises AttributeError inside the try block and the
    record returned is the error record, with an empty municipality. *)
Theorem municipio_primeiro_nao_vazio (www : rede) (cnpj : string)
    (r : resposta) (dados : pyval) :
  www (url_de cnpj) = Ok r -> status_code r = 200%Z -> json r = Ok dados ->
  (navegavel dados = true ->
   Municipio (consultar_receita www cnpj) = municipio_esperado dados)
  /\ (navegavel dados = false ->
      exists t,
        municipio_de dados = Raise (AttributeError t "get")
        /\ consultar_receita www cnpj
           = receita_erro cnpj (AttributeError t "get")).
Proof.
  intros W S J. split; intros N.
  - destruct dados as [| | | | | |itens]; try discriminate.
    now rewrite (consultar_receita_200 _ _ _ _ W S J N).
  - destruct (municipio_de_nao_navegavel _ N) as [t M].
    exists t. split; [exact M|].
    apply consultar_receita_falha.
    eapply falha_leitura; eassumption.
Qed.

Lemma municipio_primeiro_nao_vazio_witness :
  navegavel (PDict [("estabelecimento",
                     PDict [("cidade", PDict [("nome", PStr "")])]);
                    ("municipio", PStr "Recife")]) = true
  /\ Municipio
       (consultar_receita
          (www_200 (PDict [("estabelecimento",
                            PDict [("cidade", PDict [("nome", PStr "")])]);
                           ("municipio", PStr "Recife")]))
          "12.345.678/0001-95")
     = PStr "Recife".
Proof.
  split; [reflexivity|].
  exact (proj1 (municipio_primeiro_nao_vazio
                  (www_200 (PDict [("estabelecimento",
                              PDict [("cidade", PDict [("nome", PStr "")])]);
                             ("municipio", PStr "Recife")]))
                  "12.345.678/0001-95" _ _ eq_refl eq_refl eq_refl)
               eq_refl).
Defined.

(** C4, as stated, fails: with a null "estabelecimento" the chained lookup
    raises, and the record's municipality is empty although the top-level
    municipio is "Recife". *)
Lemma municipio_estabelecimento_nulo_counterexample :
  municipio_de (PDict [("estabelecimento", PNone);
                       ("municipio", PStr "Recife")])
  = Raise (AttributeError "NoneType" "get")
  /\ municipio_esperado (PDict [("estabelecimento", PNone);
                                ("municipio", PStr "Recife")])
     = PStr "Recife"
  /\ Municipio
       (consultar_receita
          (www_200 (PDict [("estabelecimento", PNone);
                           ("municipio", PStr "Recife")]))
          "12.345.678/0001-95")
     = PStr "".
Proof. repeat split. Qed.

(** C6. For a response whose status code is not 200 the record returned
    holds the identifier, the status "Não encontrado na Receita" and empty
    legal name and municipality. *)
Theorem consultar_receita_nao_encontrado (www : rede) (cnpj : string)
    (r : resposta) :
  www (url_de cnpj) = Ok r -> status_code r <> 200%Z ->
  consultar_receita www cnpj =
    {| CNPJ := cnpj;
       Razao_Social := PStr "";
       Municipio := PStr "";
       Situacao_Cadastral := PStr "Não encontrado na Receita" |}.
Proof.
  intros W S. unfold consultar_receita, consulta. rewrite W. cbn [bind].
  apply Z.eqb_neq in S. rewrite S. now rewrite str_or_id.
Qed.

Lemma consultar_receita_nao_encontrado_witness :
  consultar_receita
    (fun _ => Ok {| status_code := 404;
                    json := Raise (OutraExcecao "Expecting value") |})
    "12.345.678/0001-95"
  = {| CNPJ := "12.345.678/0001-95";
       Razao_Social := PStr "";
       Municipio := PStr "";
       Situacao_Cadastral := PStr "Não encontrado na Receita" |}.
Proof.
  apply (consultar_receita_nao_encontrado
           (fun _ => Ok {| status_code := 404;
                           json := Raise (OutraExcecao "Expecting value") |})
           "12.345.678/0001-95"
           {| status_code := 404;
              json := Raise (OutraExcecao "Expecting value") |}).
  - reflexivity.
  - simpl. lia.
Defined.

(** ** Reconciliation *)

Lemma in_flatten (df : tabela) (c : celula) :
  In c (flatten df) <-> exists linha, In linha df /\ In c linha.
Proof.
  unfold flatten. rewrite in_concat. split.
  - intros [l [H1 H2]]. eauto.
  - intros [l [H1 H2]]. eauto.
Qed.

Lemma any_m_ok {A : Type} (f : A -> bool) (xs : list A) :
  any_m (fun x => Ok (f x)) xs = Ok (existsb f xs).
Proof.
  induction xs as [|x xs IH]; simpl; [reflexivity|].
  destruct (f x); [reflexivity | exact IH].
Qed.

Section Reconciliation.

Variable lower : string -> string.
Variable repr : pyval -> string.

Lemma confere_sem_caixa_texto (df : tabela) (a : string) :
  confere_sem_caixa lower df (PStr a) =
    Ok (negb (a =? "")%string
        && existsb (fun c => contem (lower a) (lower (str c)))
                   (flatten df)).
Proof.
  unfold confere_sem_caixa. cbn [truthy lower_de bind].
  destruct (negb (a =? "")%string); [|reflexivity].
  apply (any_m_ok (fun c => contem (lower a) (lower (str c)))).
Qed.




Lemma str_valor_or (a t : string) :
  str_valor repr (py_or (PStr a) (PStr t)) = str_or a t.
Proof. unfold py_or, str_or. now destruct (truthy (PStr a)). Qed.

(** The rows the loop body appends for a record whose legal name and
    municipality are strings. *)
Lemma confronta_texto (df : tabela) (c a b : string) (s : pyval)
    (acc : list linha) :
  confronta lower repr df
    {| CNPJ := c; Razao_Social := PStr a; Municipio := PStr b;
       Situacao_Cadastral := s |} acc
  = Ok (acc ++
        [ {| Informacao := "CNPJ: " ++ c;
             Confere := sim_nao (cnpj_confere df c) |};
          {| Informacao := "Razão Social: " ++ str_or a "-";
             Confere :=
               sim_nao (negb (a =? "")%string
                        && existsb
                             (fun x => contem (lower a) (lower (str x)))
                             (flatten df)) |};
          {| Informacao := "Município: " ++ str_or b "-";
             Confere :=
               sim_nao (negb (b =? "")%string
                        && existsb
                             (fun x => contem (lower b) (lower (str x)))
                             (flatten df)) |};
          {| Informacao :=
               "Situação Cadastral: " ++ str_valor repr (py_or s (PStr "-"));
             Confere := "" |} ]).
Proof.
  unfold confronta, razao_confere, municipio_confere.
  cbn [CNPJ Razao_Social Municipio Situacao_Cadastral].
  rewrite !confere_sem_caixa_texto. cbn [bind app].
  now rewrite !str_valor_or.
Qed.

(** Whatever the record, a completed loop body has appended one block. *)
Lemma confronta_bloco (df : tabela) (r : receita) (acc linhas : list linha) :
  confronta lower repr df r acc = Ok linhas ->
  exists bloco, linhas = acc ++ bloco /\ bloco_de (CNPJ r) bloco.
Proof.
  unfold confronta.
  destruct (razao_confere lower df (Razao_Social r)) as [v2|];
    [|discriminate].
  destruct (municipio_confere lower df (Municipio r)) as [v3|];
    [|discriminate].
  cbn [bind app]. intros [= <-]. eexists. split; [reflexivity|].
  exists (cnpj_confere df (CNPJ r)), v2, v3.
  do 3 eexists. reflexivity.
Qed.

Lemma CNPJ_consultar_receita (www : rede) (cnpj : string) :
  CNPJ (consultar_receita www cnpj) = cnpj.
Proof.
  unfold consultar_receita, consulta.
  destruct (www (url_de cnpj)) as [r|e]; cbn [bind];
    [|now cbn; rewrite str_or_id].
  destruct (status_code r =? 200)%Z; [|now cbn; rewrite str_or_id].
  destruct (json r) as [dados|e]; cbn [bind];
    [|now cbn; rewrite str_or_id].
  destruct (municipio_de dados) as [m|e] eqn:M; cbn [bind];
    [|now cbn; rewrite str_or_id].
  destruct (municipio_de_dict _ _ M) as [itens ->].
  cbn. now rewrite str_or_id.
Qed.

Lemma laco_blocos (www : rede) (df : tabela) (ordem : list string) :
  forall acc linhas,
    laco lower repr www df ordem acc = Ok linhas ->
    exists blocos,
      linhas = acc ++ concat blocos /\ Forall2 bloco_de ordem blocos.
Proof.
  induction ordem as [|cnpj resto IH]; intros acc linhas; simpl.
  - intros [= <-]. exists []. simpl. now rewrite app_nil_r.
  - unfold iteracao.
    destruct (confronta lower repr df (consultar_receita www cnpj) acc)
      as [acc'|] eqn:E; [|discriminate].
    cbn [bind]. intros L.
    apply confronta_bloco in E as [b [-> B]].
    rewrite CNPJ_consultar_receita in B.
    apply IH in L as [bs [-> F]].
    exists (b :: bs). simpl. rewrite app_assoc. now split; [|constructor].
Qed.

Lemma laco_texto (www : rede) (df : tabela) (ordem : list string) :
  Forall (fun c =>
            tem_texto (Razao_Social (consultar_receita www c)) = true
            /\ tem_texto (Municipio (consultar_receita www c)) = true)
         ordem ->
  forall acc, exists linhas, laco lower repr www df ordem acc = Ok linhas.
Proof.
  induction 1 as [|cnpj resto [T1 T2] _ IH]; intros acc; simpl.
  - eauto.
  - unfold iteracao.
    destruct (consultar_receita www cnpj) as [c [| | | |a| |] [| | | |b| |] s];
      try discriminate.
    rewrite confronta_texto. cbn [bind]. apply IH.
Qed.

End Reconciliation.

Lemma contem_vazio (s : string) : contem "" s = true.
Proof. apply contem_spec. now exists "", s. Qed.

Lemma extraido_ocorre (digito : string -> bool) (c : celula)
    (cnpj : string) :
  In cnpj (extrair_cnpj digito c) ->
  formato digito cnpj /\ ocorre_no_caractere cnpj (str c).
Proof.
  intros I. unfold extrair_cnpj in I.
  pose proof (varredura_elementos _ _ _ (findall_varredura digito (str c)))
    as F.
  rewrite Forall_forall in F. now apply F.
Qed.

Lemma encontrado_formato (digito : string -> bool) (df : tabela)
    (c : string) :
  In c (cnpjs_encontrados digito df) -> formato digito c.
Proof.
  intros I. apply cnpjs_encontrados_In in I as [l [k [_ [_ I]]]].
  now apply (extraido_ocorre digito k).
Qed.

Lemma encontrado_confere (digito : string -> bool) (df : tabela)
    (cnpj : string) :
  In cnpj (cnpjs_encontrados digito df) -> cnpj_confere df cnpj = true.
Proof.
  intros I. apply cnpjs_encontrados_In in I as [l [c [I1 [I2 I3]]]].
  unfold cnpj_confere. apply existsb_exists. exists c. split.
  - apply in_flatten. eauto.
  - apply contem_spec.
    now apply ocorre_no_caractere_ocorre, (extraido_ocorre digito).
Qed.

Lemma cnpjs_unicos_exemplo :
  cnpjs_unicos digito_ascii
    [[Texto "Cliente: 12.345.678/0001-95 (matriz)"; Inteiro 7];
     [Texto "12.345.678/0001-95"; Outro "nan"]]
    ["12.345.678/0001-95"].
Proof.
  split.
  - repeat constructor. simpl. tauto.
  - intros c. vm_compute. tauto.
Defined.

(** C2. For the legal name and for the municipality, an empty registry
    value gives the verdict "Não" whatever the table holds: the script
    guards both checks.  For the identifier the condition never arises:
    the record of an identifier of the deduplicated set holds that
    identifier, which is a match of the pattern and so is never empty;
    hence on every record the loop builds, an empty value of any of the
    three fields is reported "Não", against every table. *)
Theorem campo_vazio_confere (digito : string -> bool)
    (lower : string -> string) (www : rede) (df df' : tabela)
    (unicos : list string) (cnpj : string) :
  cnpjs_unicos digito df unicos -> In cnpj unicos ->
  CNPJ (consultar_receita www cnpj) <> ""
  /\ (CNPJ (consultar_receita www cnpj) = "" ->
      sim_nao (cnpj_confere df' (CNPJ (consultar_receita www cnpj))) = "Não")
  /\ (Razao_Social (consultar_receita www cnpj) = PStr "" ->
      exists v,
        razao_confere lower df' (Razao_Social (consultar_receita www cnpj))
        = Ok v
        /\ sim_nao v = "Não")
  /\ (Municipio (consultar_receita www cnpj) = PStr "" ->
      exists v,
        municipio_confere lower df' (Municipio (consultar_receita www cnpj))
        = Ok v
        /\ sim_nao v = "Não")
  /\ (exists v, razao_confere lower df' (PStr "") = Ok v /\ sim_nao v = "Não")
  /\ (exists v,
        municipio_confere lower df' (PStr "") = Ok v /\ sim_nao v = "Não").
Proof.
  intros [_ U] I. apply U in I. apply encontrado_formato in I.
  destruct (formato_cons _ _ I) as [c [m' E]].
  assert (N : CNPJ (consultar_receita www cnpj) <> "").
  { rewrite CNPJ_consultar_receita, E. discriminate. }
  split; [exact N|]. split; [intros Z; now destruct (N Z)|].
  split; [intros ->; exists false; now split|].
  split; [intros ->; exists false; now split|].
  split; exists false; now split.
Qed.

Lemma campo_vazio_confere_witness :
  cnpjs_unicos digito_ascii
    [[Texto "Cliente: 12.345.678/0001-95 (matriz)"; Inteiro 7];
     [Texto "12.345.678/0001-95"; Outro "nan"]]
    ["12.345.678/0001-95"]
  /\ exists v,
       municipio_confere ascii_lower
         [[Texto "Cliente: 12.345.678/0001-95 (matriz)"; Inteiro 7];
          [Texto "12.345.678/0001-95"; Outro "nan"]]
         (Municipio
            (consultar_receita
               (www_200 (PDict [("razao_social", PStr "ACME LTDA")]))
               "12.345.678/0001-95"))
       = Ok v
       /\ sim_nao v = "Não".
Proof.
  split; [exact cnpjs_unicos_exemplo|].
  exact (proj1 (proj2 (proj2 (proj2
           (campo_vazio_confere digito_ascii ascii_lower
              (www_200 (PDict [("razao_social", PStr "ACME LTDA")]))
              _ [[Texto "Cliente: 12.345.678/0001-95 (matriz)"; Inteiro 7];
                 [Texto "12.345.678/0001-95"; Outro "nan"]]
              _ "12.345.678/0001-95" cnpjs_unicos_exemplo
              (or_introl eq_refl))))) eq_refl).
Defined.



(** C5. When an exception is raised by the network call, by the parse of
    the body or by the reading of its fields, [consultar_receita] returns
    the record with the identifier, empty legal name and municipality and
    the status "Erro: " followed by the exception's message; the loop
    appends that identifier's four rows and goes on with the identifiers
    that remain. *)
Theorem falha_vira_registro (lower : string -> string)
    (repr : pyval -> string) (www : rede) (df : tabela) (cnpj : string)
    (e : excecao) (resto : list string) (acc : list linha) :
  falha www cnpj e ->
  consultar_receita www cnpj =
    {| CNPJ := cnpj;
       Razao_Social := PStr "";
       Municipio := PStr "";
       Situacao_Cadastral := PStr ("Erro: " ++ str_excecao e) |}
  /\ laco lower repr www df (cnpj :: resto) acc =
     laco lower repr www df resto
       (acc ++
        [ {| Informacao := "CNPJ: " ++ cnpj;
             Confere := sim_nao (cnpj_confere df cnpj) |};
          {| Informacao := "Razão Social: -"; Confere := "Não" |};
          {| Informacao := "Município: -"; Confere := "Não" |};
          {| Informacao := "Situação Cadastral: Erro: " ++ str_excecao e;
             Confere := "" |} ]).
Proof.
  intros F. apply consultar_receita_falha in F.
  split; [exact F|].
  cbn [laco]. unfold iteracao. rewrite F. unfold receita_erro.
  rewrite confronta_texto. reflexivity.
Qed.

Lemma falha_vira_registro_witness :
  falha (fun _ => Raise (OutraExcecao "Read timed out."))
        "12.345.678/0001-95" (OutraExcecao "Read timed out.")
  /\ consultar_receita (fun _ => Raise (OutraExcecao "Read timed out."))
       "12.345.678/0001-95"
     = {| CNPJ := "12.345.678/0001-95";
          Razao_Social := PStr "";
          Municipio := PStr "";
          Situacao_Cadastral := PStr "Erro: Read timed out." |}.
Proof.
  split; [apply falha_rede; reflexivity|].
  exact (proj1 (falha_vira_registro ascii_lower repr_vazio
                  (fun _ => Raise (OutraExcecao "Read timed out."))
                  [] "12.345.678/0001-95" (OutraExcecao "Read timed out.")
                  [] [] (falha_rede _ _ _ eq_refl))).
Defined.

(** ** The report *)

(** C7. The scenario of the specification: the table has a cell reading
    "12.345.678/0001-95" and a cell reading "Acme Ltda", and the lookup
    gives legal name "ACME LTDA", no municipality and status "Ativa".  With
    a lowering under which the two spellings of the name agree, the loop
    body appends exactly the four expected rows. *)
Theorem cenario_acme (lower : string -> string) (repr : pyval -> string)
    (www : rede) (df : tabela) (c1 c2 : celula) (acc : list linha) :
  lower "ACME LTDA" = lower "Acme Ltda" ->
  In c1 (flatten df) -> str c1 = "12.345.678/0001-95" ->
  In c2 (flatten df) -> str c2 = "Acme Ltda" ->
  consultar_receita www "12.345.678/0001-95" =
    {| CNPJ := "12.345.678/0001-95";
       Razao_Social := PStr "ACME LTDA";
       Municipio := PStr "";
       Situacao_Cadastral := PStr "Ativa" |} ->
  iteracao lower repr www df "12.345.678/0001-95" acc =
    Ok (acc ++
        [ {| Informacao := "CNPJ: 12.345.678/0001-95"; Confere := "Sim" |};
          {| Informacao := "Razão Social: ACME LTDA"; Confere := "Sim" |};
          {| Informacao := "Município: -"; Confere := "Não" |};
          {| Informacao := "Situação Cadastral: Ativa"; Confere := "" |} ]).
Proof.
  intros L I1 S1 I2 S2 R. unfold iteracao. rewrite R, confronta_texto.
  assert (C : cnpj_confere df "12.345.678/0001-95" = true).
  { apply existsb_exists. exists c1. split; [exact I1|].
    rewrite S1. apply contem_refl. }
  assert (N : existsb (fun x => contem (lower "ACME LTDA") (lower (str x)))
                      (flatten df) = true).
  { apply existsb_exists. exists c2. split; [exact I2|].
    rewrite S2, L. apply contem_refl. }
  rewrite C, N. reflexivity.
Qed.

Lemma cenario_acme_witness :
  consultar_receita
    (www_200 (PDict [("razao_social", PStr "ACME LTDA");
                     ("descricao_situacao_cadastral", PStr "Ativa")]))
    "12.345.678/0001-95"
  = {| CNPJ := "12.345.678/0001-95";
       Razao_Social := PStr "ACME LTDA";
       Municipio := PStr "";
       Situacao_Cadastral := PStr "Ativa" |}
  /\ iteracao ascii_lower repr_vazio
       (www_200 (PDict [("razao_social", PStr "ACME LTDA");
                        ("descricao_situacao_cadastral", PStr "Ativa")]))
       [[Texto "12.345.678/0001-95"; Texto "Acme Ltda"]]
       "12.345.678/0001-95" []
     = Ok [ {| Informacao := "CNPJ: 12.345.678/0001-95"; Confere := "Sim" |};
            {| Informacao := "Razão Social: ACME LTDA"; Confere := "Sim" |};
            {| Informacao := "Município: -"; Confere := "Não" |};
            {| Informacao := "Situação Cadastral: Ativa"; Confere := "" |} ].
Proof.
  split; [reflexivity|].
  apply (cenario_acme ascii_lower repr_vazio _
           [[Texto "12.345.678/0001-95"; Texto "Acme Ltda"]]
           (Texto "12.345.678/0001-95") (Texto "Acme Ltda") []).
  - reflexivity.
  - simpl. auto.
  - reflexivity.
  - simpl. auto.
  - reflexivity.
  - reflexivity.
Defined.

(** C8. A run of the loop that reaches its end has appended, for each
    identifier and in the order of processing, one block of exactly four
    rows: identifier, legal name, municipality, status, the last with the
    empty verdict; the result table is the concatenation of the blocks.
    The loop does reach its end whenever every record holds strings in its
    legal-name and municipality fields. *)
Theorem resultados_quatro_por_cnpj (lower : string -> string)
    (repr : pyval -> string) (www : rede) (df : tabela)
    (ordem : list string) :
  (forall linhas,
      resultados lower repr www df ordem = Ok linhas ->
      exists blocos,
        linhas = concat blocos /\ Forall2 bloco_de ordem blocos)
  /\ (Forall (fun c =>
                tem_texto (Razao_Social (consultar_receita www c)) = true
                /\ tem_texto (Municipio (consultar_receita www c)) = true)
             ordem ->
      exists linhas, resultados lower repr www df ordem = Ok linhas).
Proof.
  split.
  - intros linhas R. now apply laco_blocos in R.
  - intros T. now apply laco_texto.
Qed.

(** Two identifiers, the first found and the second answered with 404:
    eight rows, in the order of processing. *)
Example resultados_dois_cnpjs :
  resultados ascii_lower repr_vazio
    (fun url =>
       if (url =? "https://publica.cnpj.ws/cnpj/12345678000195")%string
       then Ok {| status_code := 200;
                  json := Ok (PDict [("razao_social", PStr "ACME LTDA");
                                     ("estabelecimento",
                                      PDict [("cidade",
                                              PDict [("nome",
                                                      PStr "Recife")])])]) |}
       else Ok {| status_code := 404; json := Ok PNone |})
    [[Texto "12.345.678/0001-95"; Texto "Acme Ltda"];
     [Texto "98.765.432/0001-10"; Texto "recife - pe"]]
    ["12.345.678/0001-95"; "98.765.432/0001-10"]
  = Ok [ {| Informacao := "CNPJ: 12.345.678/0001-95"; Confere := "Sim" |};
         {| Informacao := "Razão Social: ACME LTDA"; Confere := "Sim" |};
         {| Informacao := "Município: Recife"; Confere := "Sim" |};
         {| Informacao := "Situação Cadastral: Ativo"; Confere := "" |};
         {| Informacao := "CNPJ: 98.765.432/0001-10"; Confere := "Sim" |};
         {| Informacao := "Razão Social: -"; Confere := "Não" |};
         {| Informacao := "Município: -"; Confere := "Não" |};
         {| Informacao := "Situação Cadastral: Não encontrado na Receita";
            Confere := "" |} ].
Proof. reflexivity. Qed.

(** A payload whose legal name is a number: [.lower()] raises outside the
    [try] block, and the run stops without a result table. *)
Example resultados_razao_numerica :
  resultados ascii_lower repr_vazio
    (www_200 (PDict [("razao_social", PInt 5)]))
    [[Texto "12.345.678/0001-95"]] ["12.345.678/0001-95"]
  = Raise (AttributeError "int" "lower").
Proof. reflexivity. Qed.

(** C10. Every identifier of the deduplicated set comes back unchanged in
    the record's identifier field, whatever the outcome of the lookup, and
    occurs in the text of the cell it was extracted from: the containment
    check succeeds, and the identifier row the loop body appends reads
    "CNPJ: " followed by the identifier, with the verdict "Sim".  This
    holds whatever class of decimal digits the pattern's [\d] stands
    for. *)
Theorem cnpj_sempre_confere (digito : string -> bool) (www : rede)
    (df : tabela) (unicos : list string) (cnpj : string) :
  cnpjs_unicos digito df unicos -> In cnpj unicos ->
  CNPJ (consultar_receita www cnpj) = cnpj
  /\ cnpj_confere df (CNPJ (consultar_receita www cnpj)) = true
  /\ forall lower repr acc linhas,
       iteracao lower repr www df cnpj acc = Ok linhas ->
       exists r2 r3 r4,
         linhas = acc ++ [ {| Informacao := "CNPJ: " ++ cnpj;
                              Confere := "Sim" |}; r2; r3; r4 ].
Proof.
  intros [_ U] I. apply U in I.
  pose proof (encontrado_confere _ _ _ I) as C.
  rewrite CNPJ_consultar_receita. repeat split; [exact C|].
  intros lower repr acc linhas. unfold iteracao, confronta.
  rewrite CNPJ_consultar_receita, C.
  destruct (razao_confere lower df _) as [v2|]; [|discriminate].
  destruct (municipio_confere lower df _) as [v3|]; [|discriminate].
  cbn [bind app]. intros [= <-]. do 3 eexists. reflexivity.
Qed.

Lemma cnpj_sempre_confere_witness :
  cnpjs_unicos digito_largo
    [[Texto "Cliente: １２.３４５.６７８/０００１-９５ (matriz)"; Inteiro 7];
     [Texto "１２.３４５.６７８/０００１-９５"; Outro "nan"]]
    ["１２.３４５.６７８/０００１-９５"]
  /\ cnpj_confere
       [[Texto "Cliente: １２.３４５.６７８/０００１-９５ (matriz)"; Inteiro 7];
        [Texto "１２.３４５.６７８/０００１-９５"; Outro "nan"]]
       (CNPJ (consultar_receita
                (fun _ => Raise (OutraExcecao "Read timed out."))
                "１２.３４５.６７８/０００１-９５"))
     = true.
Proof.
  assert (U : cnpjs_unicos digito_largo
                [[Texto "Cliente: １２.３４５.６７８/０００１-９５ (matriz)";
                  Inteiro 7];
                 [Texto "１２.３４５.６７８/０００１-９５"; Outro "nan"]]
                ["１２.３４５.６７８/０００１-９５"]).
  { split.
    - repeat constructor. simpl. tauto.
    - intros c. vm_compute. tauto. }
  split; [exact U|].
  exact (proj1 (proj2 (cnpj_sempre_confere digito_largo
                         (fun _ => Raise (OutraExcecao "Read timed out."))
                         _ _ "１２.３４５.６７８/０００１-９５" U
                         (or_introl eq_refl)))).
Defined.

(** * Further properties of the script *)

(** ** The digits of the request *)

Lemma so_digitos_app (s t : string) :
  so_digitos (s ++ t) = (so_digitos s ++ so_digitos t)%string.
Proof.
  induction s as [|c s IH]; simpl; [reflexivity|].
  destruct (is_digit c); simpl; now rewrite IH.
Qed.

Lemma so_digitos_so_tem_digitos (s : string) : so_tem_digitos (so_digitos s).
Proof.
  unfold so_tem_digitos. induction s as [|c s IH]; simpl; [constructor|].
  destruct (is_digit c) eqn:D; simpl; [now constructor | exact IH].
Qed.

Lemma so_digitos_fixo (s : string) : so_tem_digitos s -> so_digitos s = s.
Proof.
  unfold so_tem_digitos. induction s as [|c s IH]; simpl; [reflexivity|].
  intros F. inversion F as [|? ? D F']; subst. rewrite D. now rewrite IH.
Qed.

(** X1. [re.sub(r'[^0-9]', '', s)] keeps the digits of [s] and nothing
    else: its value holds digits only, is left unchanged by a second
    pass, is [s] itself when [s] holds digits only, and the digits of a
    concatenation are the digits of its parts, in order. *)
Theorem so_digitos_filtra (s t : string) :
  so_tem_digitos (so_digitos s)
  /\ so_digitos (so_digitos s) = so_digitos s
  /\ (so_tem_digitos s -> so_digitos s = s)
  /\ so_digitos (s ++ t) = (so_digitos s ++ so_digitos t)%string
  /\ String.length (so_digitos s) <= String.length s.
Proof.
  repeat split.
  - apply so_digitos_so_tem_digitos.
  - apply so_digitos_fixo, so_digitos_so_tem_digitos.
  - apply so_digitos_fixo.
  - apply so_digitos_app.
  - induction s as [|c s IH]; simpl; [lia|].
    destruct (is_digit c); simpl; lia.
Qed.

Lemma digitos_so_digitos (n : nat) (s : string) :
  digitos n s -> so_digitos s = s.
Proof. intros [_ F]. now apply so_digitos_fixo. Qed.

Lemma so_digitos_formato (a b c d e : string) :
  digitos 2 a -> digitos 3 b -> digitos 3 c -> digitos 4 d -> digitos 2 e ->
  so_digitos (a ++ "." ++ b ++ "." ++ c ++ "/" ++ d ++ "-" ++ e)
  = (a ++ b ++ c ++ d ++ e)%string.
Proof.
  intros A B C D E.
  rewrite !so_digitos_app.
  rewrite (digitos_so_digitos _ _ A), (digitos_so_digitos _ _ B),
    (digitos_so_digitos _ _ C), (digitos_so_digitos _ _ D),
    (digitos_so_digitos _ _ E).
  reflexivity.
Qed.


Lemma formato_exemplo : formato_cnpj "12.345.678/0001-95".
Proof.
  exists "12", "345", "678", "0001", "95". unfold digitos. simpl.
  repeat split; repeat constructor.
Qed.

Lemma formato_exemplo_2 : formato_cnpj "98.765.432/0001-10".
Proof.
  exists "98", "765", "432", "0001", "10". unfold digitos. simpl.
  repeat split; repeat constructor.
Qed.


Lemma url_de_formato_inj (m m' : string) :
  formato_cnpj m -> formato_cnpj m' -> url_de m = url_de m' -> m = m'.
Proof.
  intros [a [b [c [d [e [A [B [C [D [E ->]]]]]]]]]]
         [a' [b' [c' [d' [e' [A' [B' [C' [D' [E' ->]]]]]]]]]] U.
  unfold url_de in U.
  rewrite !so_digitos_formato in U by assumption.
  apply append_inv_length in U as [_ U]; [|reflexivity].
  apply append_inv_length in U as [-> U];
    [|destruct A as [-> _], A' as [-> _]; reflexivity].
  apply append_inv_length in U as [-> U];
    [|destruct B as [-> _], B' as [-> _]; reflexivity].
  apply append_inv_length in U as [-> U];
    [|destruct C as [-> _], C' as [-> _]; reflexivity].
  apply append_inv_length in U as [-> ->];
    [|destruct D as [-> _], D' as [-> _]; reflexivity].
  reflexivity.
Qed.

(** X3. Two distinct identifiers written with the digits 0-9 are requested
    at distinct URLs.  Identifiers written with other decimal digits are
    outside this statement: [[^0-9]] takes those digits out of the URL. *)
Theorem url_de_injetiva (m m' : string) :
  formato_cnpj m -> formato_cnpj m' -> m <> m' -> url_de m <> url_de m'.
Proof.
  intros F F' N U. apply N. now apply url_de_formato_inj.
Qed.

Lemma url_de_injetiva_witness :
  formato_cnpj "12.345.678/0001-95"
  /\ formato_cnpj "98.765.432/0001-10"
  /\ url_de "12.345.678/0001-95" <> url_de "98.765.432/0001-10".
Proof.
  split; [exact formato_exemplo|]. split; [exact formato_exemplo_2|].
  exact (url_de_injetiva _ _ formato_exemplo formato_exemplo_2
           ltac:(discriminate)).
Defined.

(** Two identifiers written with full-width digits: both are requested at
    the bare endpoint. *)
Example url_de_digitos_largos :
  extrair_cnpj digito_largo
    (Texto "１２.３４５.６７８/０００１-９５ ９８.７６５.４３２/０００１-１０")
  = ["１２.３４５.６７８/０００１-９５"; "９８.７６５.４３２/０００１-１０"]
  /\ url_de "１２.３４５.６７８/０００１-９５" = "https://publica.cnpj.ws/cnpj/"
  /\ url_de "９８.７６５.４３２/０００１-１０" = "https://publica.cnpj.ws/cnpj/".
Proof. repeat split. Qed.

(** ** The identifiers of a text and of a sheet *)

(** X4. Whatever the class of decimal digits, [extrair_cnpj] returns at
    least one identifier exactly when some part of the cell's text,
    starting at one of its characters, has the shape DD.DDD.DDD/DDDD-DD,
    wherever it stands and whatever surrounds it. *)
Theorem extrair_cnpj_nao_vazio (digito : string -> bool) (texto : celula) :
  extrair_cnpj digito texto <> [] <->
  exists m, formato digito m /\ ocorre_no_caractere m (str texto).
Proof.
  unfold extrair_cnpj.
  pose proof (findall_varredura digito (str texto)) as V. split.
  - intros N. destruct (findall digito padrao (str texto)) as [|m l] eqn:E;
      [congruence|].
    apply varredura_elementos in V. inversion V as [|? ? H _]; subst.
    now exists m.
  - intros [m [F [p [q [O I]]]]] E.
    apply (varredura_nada _ _ _ V E p (m ++ q)%string O I).
    now exists m, q.
Qed.

Lemma n_caracteres_caractere (ch r : string) :
  caractere ch -> n_caracteres (ch ++ r) = S (n_caracteres r).
Proof.
  intros C. destruct (caractere_cons _ C) as [c [t E]].
  rewrite <- (pula_caractere ch r C) at 2. rewrite E. simpl.
  now rewrite n_caracteres_equation_2.
Qed.

Lemma n_caracteres_pula (s : string) :
  s <> EmptyString -> n_caracteres s = S (n_caracteres (pula s)).
Proof.
  destruct s as [|c r]; [congruence|]. intros _.
  now rewrite n_caracteres_equation_2.
Qed.

Lemma n_caracteres_digitos (digito : string -> bool) (n : nat)
    (a r : string) :
  digitos_de digito n a -> n_caracteres (a ++ r) = n + n_caracteres r.
Proof.
  induction 1 as [|ch n s C _ _ IH]; [reflexivity|].
  rewrite append_assoc, (n_caracteres_caractere _ _ C), IH. reflexivity.
Qed.

Lemma n_caracteres_formato (digito : string -> bool) (m r : string) :
  formato digito m -> n_caracteres (m ++ r) = 18 + n_caracteres r.
Proof.
  intros [a [b [c [d [e [A [B [C [D [E ->]]]]]]]]]].
  assert (L : forall l t, largura l = 1 ->
                n_caracteres (String l t) = S (n_caracteres t)).
  { intros l t H.
    apply (n_caracteres_caractere (String l EmptyString) t).
    now apply caractere_ascii. }
  repeat rewrite append_assoc.
  rewrite (n_caracteres_digitos digito 2 a _ A).
  cbn [append]. rewrite L by reflexivity.
  rewrite (n_caracteres_digitos digito 3 b _ B).
  cbn [append]. rewrite L by reflexivity.
  rewrite (n_caracteres_digitos digito 3 c _ C).
  cbn [append]. rewrite L by reflexivity.
  rewrite (n_caracteres_digitos digito 4 d _ D).
  cbn [append]. rewrite L by reflexivity.
  rewrite (n_caracteres_digitos digito 2 e _ E).
  lia.
Qed.

Lemma varredura_comprimento (digito : string -> bool) (s : string)
    (l : list string) :
  varredura digito s l -> 18 * List.length l <= n_caracteres s.
Proof.
  induction 1 as [|m r l F _ IH|s l N C _ IH]; simpl.
  - lia.
  - rewrite (n_caracteres_formato digito _ _ F). lia.
  - rewrite (n_caracteres_pula _ N). lia.
Qed.

(** X5. The identifiers returned for a cell do not overlap: eighteen
    characters each, they fit together in the cell's text, whose length
    in characters is at least eighteen times their number; a text of
    fewer than eighteen characters yields none. *)
Theorem extrair_cnpj_sem_sobreposicao (digito : string -> bool)
    (texto : celula) :
  Forall (fun m => n_caracteres m = 18) (extrair_cnpj digito texto)
  /\ 18 * List.length (extrair_cnpj digito texto)
     <= n_caracteres (str texto)
  /\ (n_caracteres (str texto) < 18 -> extrair_cnpj digito texto = []).
Proof.
  unfold extrair_cnpj.
  pose proof (findall_varredura digito (str texto)) as V.
  pose proof (varredura_comprimento _ _ _ V) as L.
  repeat split.
  - eapply Forall_impl; [|exact (varredura_elementos _ _ _ V)].
    intros m [F _]. rewrite <- (append_nil_r m).
    now rewrite (n_caracteres_formato digito _ _ F).
  - exact L.
  - intros S. destruct (findall digito padrao (str texto)); [reflexivity|].
    simpl in L. lia.
Qed.

(** A text of seventeen characters and eighteen bytes, and an identifier
    of eighteen characters and forty-six bytes. *)
Example n_caracteres_exemplos :
  n_caracteres "São Paulo 1.234-5" = 17
  /\ String.length "São Paulo 1.234-5" = 18
  /\ n_caracteres "１２.３４５.６７８/０００１-９５" = 18
  /\ String.length "１２.３４５.６７８/０００１-９５" = 46.
Proof. repeat split. Qed.

Lemma cnpjs_linha_flat_map (digito : string -> bool) (linha : list celula)
    (acc : list string) :
  fold_left
    (fun encontrados celula =>
       match extrair_cnpj digito celula with
       | [] => encontrados
       | cnpjs => encontrados ++ cnpjs
       end) linha acc
  = acc ++ flat_map (extrair_cnpj digito) linha.
Proof.
  revert acc. induction linha as [|x linha IH]; intros acc; simpl.
  - now rewrite app_nil_r.
  - rewrite IH. destruct (extrair_cnpj digito x) as [|y ys].
    + reflexivity.
    + now rewrite <- app_assoc.
Qed.

(** X6. The two nested loops gather the identifiers of every cell, row
    after row and cell after cell, repetitions included: the guard
    [if cnpjs:] changes nothing, and [cnpjs_encontrados] is the
    concatenation of the extractions over the flattened table. *)
Theorem cnpjs_encontrados_flat_map (digito : string -> bool) (df : tabela) :
  cnpjs_encontrados digito df
  = flat_map (extrair_cnpj digito) (flatten df).
Proof.
  unfold cnpjs_encontrados, flatten.
  enough (G : forall acc,
    fold_left
      (fun encontrados linha =>
         fold_left
           (fun encontrados celula =>
              match extrair_cnpj digito celula with
              | [] => encontrados
              | cnpjs => encontrados ++ cnpjs
              end) linha encontrados) df acc
    = acc ++ flat_map (extrair_cnpj digito) (concat df)) by apply (G []).
  induction df as [|l df IH]; intros acc; simpl.
  - now rewrite app_nil_r.
  - rewrite IH, cnpjs_linha_flat_map, flat_map_app. now rewrite app_assoc.
Qed.

(** ** The deduplicated identifiers *)

(** X7. Whatever order [list(set(...))] gives and whatever the class of
    decimal digits, every identifier of the deduplicated list has the
    shape DD.DDD.DDD/DDDD-DD and occurs in the text of some cell of the
    table, and the list is no longer than the list of identifiers found. *)
Theorem cnpjs_unicos_formato (digito : string -> bool) (df : tabela)
    (unicos : list string) :
  cnpjs_unicos digito df unicos ->
  Forall (fun c =>
            formato digito c
            /\ exists linha celula,
                 In linha df /\ In celula linha /\ ocorre_em c (str celula))
         unicos
  /\ List.length unicos <= List.length (cnpjs_encontrados digito df).
Proof.
  intros [N U]. split.
  - apply Forall_forall. intros c I. apply U in I.
    split; [now apply (encontrado_formato digito df)|].
    apply cnpjs_encontrados_In in I as [l [k [I1 [I2 I3]]]].
    exists l, k. repeat split; try assumption.
    now apply ocorre_no_caractere_ocorre, (extraido_ocorre digito).
  - apply NoDup_incl_length; [exact N|].
    intros c I. now apply U.
Qed.

Lemma cnpjs_unicos_exemplo_largo :
  cnpjs_unicos digito_largo
    [[Texto "Cliente: １２.３４５.６７８/０００１-９５"; Inteiro 7];
     [Texto "12.345.678/0001-95"; Texto "１２.３４５.６７８/０００１-９５"]]
    ["12.345.678/0001-95"; "１２.３４５.６７８/０００１-９５"].
Proof.
  split.
  - repeat constructor; simpl; intuition discriminate.
  - intros c. vm_compute. tauto.
Defined.

Lemma cnpjs_unicos_formato_witness :
  cnpjs_unicos digito_largo
    [[Texto "Cliente: １２.３４５.６７８/０００１-９５"; Inteiro 7];
     [Texto "12.345.678/0001-95"; Texto "１２.３４５.６７８/０００１-９５"]]
    ["12.345.678/0001-95"; "１２.３４５.６７８/０００１-９５"]
  /\ List.length ["12.345.678/0001-95"; "１２.３４５.６７８/０００１-９５"]
     <= List.length
          (cnpjs_encontrados digito_largo
             [[Texto "Cliente: １２.３４５.６７８/０００１-９５"; Inteiro 7];
              [Texto "12.345.678/0001-95";
               Texto "１２.３４５.６７８/０００１-９５"]]).
Proof.
  split; [exact cnpjs_unicos_exemplo_largo|].
  exact (proj2 (cnpjs_unicos_formato _ _ _ cnpjs_unicos_exemplo_largo)).
Defined.

(** X9. The deduplicated list is empty, and the script shows its warning
    instead of looking anything up, exactly when no cell of the table has,
    starting at one of its characters, a part of the shape
    DD.DDD.DDD/DDDD-DD in its text. *)
Theorem cnpjs_unicos_vazio (digito : string -> bool) (df : tabela)
    (unicos : list string) :
  cnpjs_unicos digito df unicos ->
  (unicos = [] <->
   forall linha celula m,
     In linha df -> In celula linha ->
     ocorre_no_caractere m (str celula) -> ~ formato digito m).
Proof.
  intros [_ U]. split.
  - intros -> l k m I1 I2 O F.
    destruct (extrair_cnpj digito k) as [|x xs] eqn:E.
    + assert (V : varredura digito (str k) []).
      { rewrite <- E. apply findall_varredura. }
      destruct O as [p [q [O I]]].
      apply (varredura_nada _ _ _ V eq_refl p (m ++ q)%string O I).
      now exists m, q.
    + apply (proj2 (U x)). apply cnpjs_encontrados_In.
      exists l, k. rewrite E. simpl. auto.
  - intros H. destruct unicos as [|c cs]; [reflexivity|].
    assert (I : In c (cnpjs_encontrados digito df))
      by (apply U; simpl; auto).
    apply cnpjs_encontrados_In in I as [l [k [I1 [I2 I3]]]].
    apply extraido_ocorre in I3 as [F O].
    now destruct (H l k c I1 I2 O).
Qed.

Lemma cnpjs_unicos_vazio_witness :
  cnpjs_unicos digito_largo
    [[Texto "Acme Ltda"; Inteiro 12345678000195]] []
  /\ forall linha celula m,
       In linha [[Texto "Acme Ltda"; Inteiro 12345678000195]] ->
       In celula linha -> ocorre_no_caractere m (str celula) ->
       ~ formato digito_largo m.
Proof.
  assert (U : cnpjs_unicos digito_largo
                [[Texto "Acme Ltda"; Inteiro 12345678000195]] []).
  { split; [constructor|]. intros c. vm_compute. tauto. }
  split; [exact U|].
  exact (proj1 (cnpjs_unicos_vazio _ _ _ U) eq_refl).
Defined.

(** ** The sheet as prepared *)

Lemma extrair_cnpj_vazio (digito : string -> bool) :
  extrair_cnpj digito (Texto "") = [].
Proof. unfold extrair_cnpj. now apply findall_fim. Qed.

Lemma fillna_In (digito : string -> bool)
    (df : list (list (option celula))) (c : string) :
  In c (cnpjs_encontrados digito (fillna df)) <->
  exists linha celula,
    In linha df /\ In (Some celula) linha
    /\ In c (extrair_cnpj digito celula).
Proof.
  rewrite cnpjs_encontrados_In. unfold fillna. split.
  - intros [l [k [I1 [I2 I3]]]].
    apply in_map_iff in I1 as [l0 [<- I1]].
    apply in_map_iff in I2 as [[k0|] [<- I2]].
    + now exists l0, k0.
    + rewrite extrair_cnpj_vazio in I3. destruct I3.
  - intros [l [k [I1 [I2 I3]]]].
    exists (map (fun c => match c with Some x => x | None => Texto "" end) l),
           k.
    split; [now apply in_map|]. split; [|exact I3].
    apply in_map_iff. now exists (Some k).
Qed.

(** X10. The script drops the first column of a sheet that has more than
    one column and fills the missing cells with the empty text.  The
    identifiers it then finds are those of the filled cells outside the
    first column; in a sheet of one column, those of its filled cells.  An
    identifier that stands only in the first column of a wider sheet is
    never found. *)
Theorem df_preparado_encontrados (digito : string -> bool)
    (lido : list (list (option celula))) (c : string) :
  (1 < n_colunas lido ->
   (In c (cnpjs_encontrados digito (df_preparado lido)) <->
    exists linha celula,
      In linha lido /\ In (Some celula) (tl linha)
      /\ In c (extrair_cnpj digito celula)))
  /\ (n_colunas lido <= 1 ->
      (In c (cnpjs_encontrados digito (df_preparado lido)) <->
       exists linha celula,
         In linha lido /\ In (Some celula) linha
         /\ In c (extrair_cnpj digito celula))).
Proof.
  unfold df_preparado, sem_primeira_coluna. split; intros N.
  - apply Nat.ltb_lt in N. rewrite N, fillna_In. split.
    + intros [l [k [I1 I2]]]. apply in_map_iff in I1 as [l0 [<- I1]].
      now exists l0, k.
    + intros [l [k [I1 I2]]]. exists (tl l), k.
      split; [now apply in_map | exact I2].
  - apply Nat.ltb_ge in N. rewrite N. apply fillna_In.
Qed.

(** A sheet of two columns and two rows: the identifiers of the first
    column are not found, the missing cell gives none. *)
Example df_preparado_primeira_coluna :
  cnpjs_encontrados digito_ascii
    (df_preparado [[Some (Texto "12.345.678/0001-95");
                    Some (Texto "98.765.432/0001-10")];
                   [Some (Texto "11.222.333/0001-81"); None]])
  = ["98.765.432/0001-10"].
Proof. reflexivity. Qed.

(** ** The record of a lookup *)

Lemma py_or_normalizado (v : pyval) : normalizado (py_or v (PStr "")).
Proof.
  unfold normalizado, py_or. destruct (truthy v) eqn:T; auto.
Qed.

Lemma municipio_de_normalizado (dados m : pyval) :
  municipio_de dados = Ok m -> normalizado m.
Proof.
  unfold municipio_de.
  destruct (get dados "estabelecimento" (PDict [])) as [e|]; cbn [bind];
    [|discriminate].
  destruct (get e "cidade" (PDict [])) as [c|]; cbn [bind]; [|discriminate].
  destruct (get c "nome" (PStr "")) as [n|]; cbn [bind]; [|discriminate].
  destruct (truthy n) eqn:T.
  - intros [= <-]. now left.
  - destruct (get dados "municipio" (PStr "")) as [v|]; cbn [bind];
      [|discriminate].
    intros [= <-]. apply py_or_normalizado.
Qed.

(** X11. Whatever the network answers, the record [consultar_receita]
    returns holds the identifier it was given, and in each of the other
    three fields either a truthy value or the empty string: a null, a
    zero, a false or an empty list or object of the payload never reaches
    the report. *)
Theorem consultar_receita_normalizado (www : rede) (cnpj : string) :
  CNPJ (consultar_receita www cnpj) = cnpj
  /\ normalizado (Razao_Social (consultar_receita www cnpj))
  /\ normalizado (Municipio (consultar_receita www cnpj))
  /\ normalizado (Situacao_Cadastral (consultar_receita www cnpj)).
Proof.
  split; [apply CNPJ_consultar_receita|].
  unfold consultar_receita, consulta.
  destruct (www (url_de cnpj)) as [r|e]; cbn [bind].
  - destruct (status_code r =? 200)%Z.
    + destruct (json r) as [dados|e]; cbn [bind].
      * destruct (municipio_de dados) as [m|e] eqn:M; cbn [bind].
        -- destruct (municipio_de_dict _ _ M) as [itens ->].
           cbn [get bind Razao_Social Municipio Situacao_Cadastral].
           repeat split; try apply py_or_normalizado.
           now apply (municipio_de_normalizado (PDict itens)).
        -- cbn. repeat split; try (now right); now left.
      * cbn. repeat split; try (now right); now left.
    + cbn. repeat split; try (now right); now left.
  - cbn. repeat split; try (now right); now left.
Qed.

(** X12. For a 200-status response whose body is an object on which the
    municipality lookup does not raise, the legal-name field is the value
    under razao_social when the key is there with a truthy value, and the
    empty string when the key is missing or its value is falsy. *)
Theorem razao_social_lida (www : rede) (cnpj : string) (r : resposta)
    (itens : list (string * pyval)) :
  www (url_de cnpj) = Ok r -> status_code r = 200%Z ->
  json r = Ok (PDict itens) -> navegavel (PDict itens) = true ->
  (dict_lookup "razao_social" itens = None ->
   Razao_Social (consultar_receita www cnpj) = PStr "")
  /\ (forall v, dict_lookup "razao_social" itens = Some v ->
      Razao_Social (consultar_receita www cnpj)
      = if truthy v then v else PStr "").
Proof.
  intros W S J N. rewrite (consultar_receita_200 _ _ _ _ W S J N).
  cbn [Razao_Social]. split.
  - intros ->. reflexivity.
  - intros v ->. reflexivity.
Qed.

Lemma razao_social_lida_witness :
  navegavel (PDict [("razao_social", PNone)]) = true
  /\ Razao_Social
       (consultar_receita (www_200 (PDict [("razao_social", PNone)]))
          "12.345.678/0001-95")
     = PStr "".
Proof.
  split; [reflexivity|].
  exact (proj2 (razao_social_lida
                  (www_200 (PDict [("razao_social", PNone)]))
                  "12.345.678/0001-95" _ _
                  eq_refl eq_refl eq_refl eq_refl) PNone eq_refl).
Defined.

Lemma municipio_de_nao_objeto (dados v : pyval) :
  primeiro_nao_objeto dados = Some v ->
  municipio_de dados = Raise (AttributeError (type_name v) "get").
Proof.
  unfold primeiro_nao_objeto, municipio_de.
  destruct dados as [| | | | | |itens];
    try (intros [= <-]; reflexivity).
  cbn [get bind].
  destruct (dict_lookup "estabelecimento" itens) as [e|]; [|discriminate].
  destruct e as [| | | | | |est]; try (intros [= <-]; reflexivity).
  cbn [get bind].
  destruct (dict_lookup "cidade" est) as [c|]; [|discriminate].
  destruct c as [| | | | | |cid]; try (intros [= <-]; reflexivity).
Qed.

(** X13. In a 200-status response, when the body is not an object, or its
    "estabelecimento" is there and is not an object, or the "cidade" of
    that is there and is not an object, the record returned is the error
    record and its status names the type of that value: "Erro: '<type>'
    object has no attribute 'get'".  The legal name and the status the
    payload may carry are lost with it. *)
Theorem erro_nomeia_o_tipo (www : rede) (cnpj : string) (r : resposta)
    (dados v : pyval) :
  www (url_de cnpj) = Ok r -> status_code r = 200%Z -> json r = Ok dados ->
  primeiro_nao_objeto dados = Some v ->
  consultar_receita www cnpj =
    {| CNPJ := cnpj;
       Razao_Social := PStr "";
       Municipio := PStr "";
       Situacao_Cadastral :=
         PStr ("Erro: '" ++ type_name v
               ++ "' object has no attribute 'get'") |}.
Proof.
  intros W S J P.
  rewrite (consultar_receita_falha www cnpj
             (AttributeError (type_name v) "get")); [reflexivity|].
  eapply falha_leitura; try eassumption.
  now apply municipio_de_nao_objeto.
Qed.

Lemma erro_nomeia_o_tipo_witness :
  primeiro_nao_objeto
    (PDict [("razao_social", PStr "ACME LTDA");
            ("estabelecimento", PDict [("cidade", PStr "Recife")])])
  = Some (PStr "Recife")
  /\ consultar_receita
       (www_200
          (PDict [("razao_social", PStr "ACME LTDA");
                  ("estabelecimento", PDict [("cidade", PStr "Recife")])]))
       "12.345.678/0001-95"
     = {| CNPJ := "12.345.678/0001-95";
          Razao_Social := PStr "";
          Municipio := PStr "";
          Situacao_Cadastral :=
            PStr "Erro: 'str' object has no attribute 'get'" |}.
Proof.
  split; [reflexivity|].
  exact (erro_nomeia_o_tipo
           (www_200
              (PDict [("razao_social", PStr "ACME LTDA");
                      ("estabelecimento",
                       PDict [("cidade", PStr "Recife")])]))
           "12.345.678/0001-95" _ _ (PStr "Recife")
           eq_refl eq_refl eq_refl eq_refl).
Defined.

(** ** When the loop body raises *)

Lemma confere_sem_caixa_levanta (lower : string -> string) (df : tabela)
    (v : pyval) (c : celula) (cs : list celula) :
  flatten df = c :: cs -> sem_lower v = true ->
  confere_sem_caixa lower df v
  = Raise (AttributeError (type_name v) "lower").
Proof.
  intros F S. unfold sem_lower in S. apply andb_prop in S as [T N].
  unfold confere_sem_caixa. rewrite T, F.
  destruct v; try discriminate; reflexivity.
Qed.

Lemma confere_sem_caixa_retorna (lower : string -> string) (df : tabela)
    (v : pyval) :
  sem_lower v = false \/ flatten df = [] ->
  exists b, confere_sem_caixa lower df v = Ok b.
Proof.
  intros [S | F].
  - destruct (tem_texto v) eqn:X.
    + destruct v; try discriminate.
      rewrite confere_sem_caixa_texto. eauto.
    + unfold sem_lower in S. rewrite X, andb_true_r in S.
      unfold confere_sem_caixa. rewrite S. eauto.
  - unfold confere_sem_caixa. rewrite F.
    destruct (truthy v); simpl; eauto.
Qed.

(** X14. The loop body raises exactly on a record whose legal name or
    municipality is truthy and not a string, and only when the table has a
    cell: the first such value, legal name before municipality, is named
    in AttributeError "'<type>' object has no attribute 'lower'", and no
    row is appended.  On any other record, and on a table without cells,
    the body returns. *)
Theorem confronta_levanta (lower : string -> string)
    (repr : pyval -> string) (df : tabela) (r : receita)
    (acc : list linha) :
  (flatten df <> [] -> sem_lower (Razao_Social r) = true ->
   confronta lower repr df r acc
   = Raise (AttributeError (type_name (Razao_Social r)) "lower"))
  /\ (flatten df <> [] -> sem_lower (Razao_Social r) = false ->
      sem_lower (Municipio r) = true ->
      confronta lower repr df r acc
      = Raise (AttributeError (type_name (Municipio r)) "lower"))
  /\ (sem_lower (Razao_Social r) = false ->
      sem_lower (Municipio r) = false ->
      exists linhas, confronta lower repr df r acc = Ok linhas)
  /\ (flatten df = [] ->
      exists linhas, confronta lower repr df r acc = Ok linhas).
Proof.
  unfold confronta, razao_confere, municipio_confere. repeat split.
  - intros F S. destruct (flatten df) as [|c cs] eqn:E; [congruence|].
    now rewrite (confere_sem_caixa_levanta lower df _ c cs E S).
  - intros F S1 S2. destruct (flatten df) as [|c cs] eqn:E; [congruence|].
    destruct (confere_sem_caixa_retorna lower df (Razao_Social r))
      as [b ->]; [now left|].
    cbn [bind].
    now rewrite (confere_sem_caixa_levanta lower df _ c cs E S2).
  - intros S1 S2.
    destruct (confere_sem_caixa_retorna lower df (Razao_Social r))
      as [b1 ->]; [now left|].
    destruct (confere_sem_caixa_retorna lower df (Municipio r))
      as [b2 ->]; [now left|].
    cbn [bind]. eauto.
  - intros F.
    destruct (confere_sem_caixa_retorna lower df (Razao_Social r))
      as [b1 ->]; [now right|].
    destruct (confere_sem_caixa_retorna lower df (Municipio r))
      as [b2 ->]; [now right|].
    cbn [bind]. eauto.
Qed.

(** X15. When the payload of an identifier found in the table carries a
    truthy legal name that is not a string, the loop stops at that
    identifier with AttributeError: the identifiers after it are not
    looked up and the rows gathered before it are not shown. *)
Theorem laco_interrompido (digito : string -> bool)
    (lower : string -> string) (repr : pyval -> string) (www : rede)
    (df : tabela) (cnpj : string) (resto : list string)
    (acc : list linha) :
  In cnpj (cnpjs_encontrados digito df) ->
  sem_lower (Razao_Social (consultar_receita www cnpj)) = true ->
  laco lower repr www df (cnpj :: resto) acc
  = Raise (AttributeError
             (type_name (Razao_Social (consultar_receita www cnpj)))
             "lower").
Proof.
  intros I S. cbn [laco]. unfold iteracao, confronta, razao_confere.
  apply cnpjs_encontrados_In in I as [l [k [I1 [I2 _]]]].
  assert (F : In k (flatten df)) by (apply in_flatten; eauto).
  destruct (flatten df) as [|c cs] eqn:E; [destruct F|].
  now rewrite (confere_sem_caixa_levanta lower df _ c cs E S).
Qed.

Lemma laco_interrompido_witness :
  In "12.345.678/0001-95"
     (cnpjs_encontrados digito_ascii
        [[Texto "12.345.678/0001-95"; Texto "Acme Ltda"]])
  /\ laco ascii_lower repr_vazio
       (www_200 (PDict [("razao_social", PList [PStr "ACME LTDA"])]))
       [[Texto "12.345.678/0001-95"; Texto "Acme Ltda"]]
       ["12.345.678/0001-95"; "98.765.432/0001-10"] []
     = Raise (AttributeError "list" "lower").
Proof.
  split; [vm_compute; auto|].
  apply (laco_interrompido digito_ascii ascii_lower repr_vazio
           (www_200 (PDict [("razao_social", PList [PStr "ACME LTDA"])]))
           [[Texto "12.345.678/0001-95"; Texto "Acme Ltda"]]
           "12.345.678/0001-95" ["98.765.432/0001-10"] []).
  - vm_compute. auto.
  - reflexivity.
Defined.

(** ** Verdicts and the table *)

(** X16. A verdict "Sim" survives any growth of the table: when every cell
    of [df] is also a cell of [df'], an identifier, a legal name or a
    municipality found in [df] is found in [df'].  The verdicts depend on
    the cells only, not on their rows or order. *)
Theorem confere_monotono (lower : string -> string) (df df' : tabela)
    (c a : string) :
  (forall x, In x (flatten df) -> In x (flatten df')) ->
  (cnpj_confere df c = true -> cnpj_confere df' c = true)
  /\ (razao_confere lower df (PStr a) = Ok true ->
      razao_confere lower df' (PStr a) = Ok true)
  /\ (municipio_confere lower df (PStr a) = Ok true ->
      municipio_confere lower df' (PStr a) = Ok true).
Proof.
  intros I.
  assert (G : confere_sem_caixa lower df (PStr a) = Ok true ->
              confere_sem_caixa lower df' (PStr a) = Ok true).
  { rewrite !confere_sem_caixa_texto. intros [= H].
    apply andb_prop in H as [H1 H2]. rewrite H1. cbn [andb]. f_equal.
    apply existsb_exists in H2 as [x [Ix Cx]].
    apply existsb_exists. exists x. split; [now apply I | exact Cx]. }
  repeat split; try exact G.
  unfold cnpj_confere. intros H.
  apply existsb_exists in H as [x [Ix Cx]].
  apply existsb_exists. exists x. split; [now apply I | exact Cx].
Qed.

Lemma confere_monotono_witness :
  cnpj_confere [[Texto "x"]; [Texto "CNPJ 12.345.678/0001-95"]]
    "12.345.678/0001-95" = true.
Proof.
  apply (proj1 (confere_monotono ascii_lower
                  [[Texto "CNPJ 12.345.678/0001-95"]]
                  [[Texto "x"]; [Texto "CNPJ 12.345.678/0001-95"]]
                  "12.345.678/0001-95" "ACME"
                  ltac:(simpl; tauto))).
  reflexivity.
Defined.

(** ** The report of a whole run *)

(** X17. An identifier the registry answers with a status other than 200
    still gets its four rows, and the loop goes on: the identifier row,
    "Razão Social: -" and "Município: -" with the verdict "Não", and the
    status row "Situação Cadastral: Não encontrado na Receita". *)
Theorem nao_encontrado_linhas (lower : string -> string)
    (repr : pyval -> string) (www : rede) (df : tabela) (cnpj : string)
    (r : resposta) (resto : list string) (acc : list linha) :
  www (url_de cnpj) = Ok r -> status_code r <> 200%Z ->
  laco lower repr www df (cnpj :: resto) acc =
  laco lower repr www df resto
    (acc ++
     [ {| Informacao := "CNPJ: " ++ cnpj;
          Confere := sim_nao (cnpj_confere df cnpj) |};
       {| Informacao := "Razão Social: -"; Confere := "Não" |};
       {| Informacao := "Município: -"; Confere := "Não" |};
       {| Informacao := "Situação Cadastral: Não encontrado na Receita";
          Confere := "" |} ]).
Proof.
  intros W S. cbn [laco]. unfold iteracao, consultar_receita, consulta.
  rewrite W. cbn [bind]. apply Z.eqb_neq in S. rewrite S.
  rewrite str_or_id, confronta_texto. reflexivity.
Qed.

Lemma nao_encontrado_linhas_witness :
  laco ascii_lower repr_vazio
    (fun _ => Ok {| status_code := 404; json := Ok PNone |})
    [[Texto "12.345.678/0001-95"]] ["12.345.678/0001-95"] []
  = Ok [ {| Informacao := "CNPJ: 12.345.678/0001-95"; Confere := "Sim" |};
         {| Informacao := "Razão Social: -"; Confere := "Não" |};
         {| Informacao := "Município: -"; Confere := "Não" |};
         {| Informacao := "Situação Cadastral: Não encontrado na Receita";
            Confere := "" |} ].
Proof.
  rewrite (nao_encontrado_linhas ascii_lower repr_vazio
             (fun _ => Ok {| status_code := 404; json := Ok PNone |})
             [[Texto "12.345.678/0001-95"]] "12.345.678/0001-95"
             {| status_code := 404; json := Ok PNone |} [] []
             eq_refl ltac:(discriminate)).
  reflexivity.
Defined.

Lemma blocos_comprimento (ordem : list string) (blocos : list (list linha)) :
  Forall2 bloco_de ordem blocos ->
  List.length (concat blocos) = 4 * List.length ordem.
Proof.
  induction 1 as [|c b cs bs B _ IH]; [reflexivity|].
  destruct B as [v1 [v2 [v3 [i2 [i3 [i4 ->]]]]]].
  simpl in *. lia.
Qed.

(** X18. The script as a whole, whatever the class of decimal digits: with
    no identifier found it shows the warning and builds no table;
    otherwise, when the loop reaches its end, the success message counts
    the distinct identifiers and the table has four rows for each of them;
    and the loop does reach its end whenever the records hold strings in
    legal name and municipality. *)
Theorem principal_telas (digito : string -> bool)
    (lower : string -> string) (repr : pyval -> string)
    (www : rede) (df : tabela) (unicos : list string) :
  cnpjs_unicos digito df unicos ->
  (principal lower repr www df unicos = Ok Aviso <->
   cnpjs_encontrados digito df = [])
  /\ (forall n linhas,
         principal lower repr www df unicos = Ok (Relatorio n linhas) ->
         n = List.length unicos /\ 0 < n /\ List.length linhas = 4 * n)
  /\ (unicos <> [] ->
      Forall (fun c =>
                tem_texto (Razao_Social (consultar_receita www c)) = true
                /\ tem_texto (Municipio (consultar_receita www c)) = true)
             unicos ->
      exists linhas,
        principal lower repr www df unicos
        = Ok (Relatorio (List.length unicos) linhas)).
Proof.
  intros [_ U]. repeat split.
  - destruct unicos as [|c cs].
    + intros _.
      destruct (cnpjs_encontrados digito df) as [|x xs]; [reflexivity|].
      destruct (proj2 (U x) (or_introl eq_refl)).
    + unfold principal.
      destruct (resultados lower repr www df (c :: cs)); discriminate.
  - intros E. destruct unicos as [|c cs]; [reflexivity|].
    assert (I : In c (cnpjs_encontrados digito df))
      by (apply U; simpl; auto).
    rewrite E in I. destruct I.
  - destruct unicos as [|c cs]; [discriminate|].
    unfold principal in H.
    destruct (resultados lower repr www df (c :: cs)); [|discriminate].
    cbn [bind] in H. congruence.
  - destruct unicos as [|c cs]; [discriminate|].
    unfold principal in H.
    destruct (resultados lower repr www df (c :: cs)); [|discriminate].
    cbn [bind] in H. injection H as <- _. simpl. lia.
  - destruct unicos as [|c cs]; [discriminate|].
    unfold principal in H.
    destruct (resultados lower repr www df (c :: cs)) as [ls|] eqn:R;
      [|discriminate].
    cbn [bind] in H. injection H as <- <-.
    apply laco_blocos in R as [bs [-> F]].
    exact (blocos_comprimento (c :: cs) bs F).
  - intros N T. destruct unicos as [|c cs]; [congruence|].
    unfold principal, resultados.
    destruct (laco_texto lower repr www df (c :: cs) T []) as [ls ->].
    cbn [bind]. eauto.
Qed.

Lemma principal_telas_witness :
  cnpjs_unicos digito_largo
    [[Texto "Cliente: １２.３４５.６７８/０００１-９５"; Inteiro 7];
     [Texto "12.345.678/0001-95"; Texto "１２.３４５.６７８/０００１-９５"]]
    ["12.345.678/0001-95"; "１２.３４５.６７８/０００１-９５"]
  /\ exists linhas,
       principal ascii_lower repr_vazio
         (fun _ => Ok {| status_code := 404; json := Ok PNone |})
         [[Texto "Cliente: １２.３４５.６７８/０００１-９５"; Inteiro 7];
          [Texto "12.345.678/0001-95";
           Texto "１２.３４５.６７８/０００１-９５"]]
         ["12.345.678/0001-95"; "１２.３４５.６７８/０００１-９５"]
       = Ok (Relatorio 2 linhas).
Proof.
  split; [exact cnpjs_unicos_exemplo_largo|].
  apply (proj2 (proj2 (principal_telas digito_largo ascii_lower repr_vazio
                         (fun _ => Ok {| status_code := 404;
                                         json := Ok PNone |})
                         _ _ cnpjs_unicos_exemplo_largo))).
  - discriminate.
  - repeat constructor.
Defined.

(** ** Cells holding numbers *)

Lemma list_ascii_of_string_app (a b : string) :
  list_ascii_of_string (a ++ b)
  = list_ascii_of_string a ++ list_ascii_of_string b.
Proof. induction a as [|x a IH]; simpl; [reflexivity | now rewrite IH]. Qed.

Lemma formato_tem_ponto (digito : string -> bool) (m : string) :
  formato digito m -> In "."%char (list_ascii_of_string m).
Proof.
  intros [a [b [c [d [e [_ [_ [_ [_ [_ ->]]]]]]]]]].
  rewrite list_ascii_of_string_app. apply in_or_app. right. simpl. auto.
Qed.

Lemma ocorre_em_char (m s : string) (c : ascii) :
  ocorre_em m s -> In c (list_ascii_of_string m) ->
  In c (list_ascii_of_string s).
Proof.
  intros [p [q ->]] I. rewrite !list_ascii_of_string_app.
  apply in_or_app. right. apply in_or_app. now left.
Qed.

Lemma sem_ponto_sem_cnpj (digito : string -> bool) (texto : celula) :
  ~ In "."%char (list_ascii_of_string (str texto)) ->
  extrair_cnpj digito texto = [].
Proof.
  intros N. destruct (extrair_cnpj digito texto) as [|m l] eqn:E;
    [reflexivity|].
  destruct (extraido_ocorre digito texto m) as [F O];
    [rewrite E; simpl; auto|].
  exfalso. apply N.
  apply (ocorre_em_char m); [now apply ocorre_no_caractere_ocorre|].
  now apply (formato_tem_ponto digito).
Qed.

Lemma string_of_uint_sem_ponto (d : Decimal.uint) :
  ~ In "."%char
      (list_ascii_of_string (DecimalString.NilEmpty.string_of_uint d)).
Proof.
  induction d; simpl; intros H; try (destruct H as [H | H];
    [discriminate H | now apply IHd]).
  exact H.
Qed.

(** X19. A cell that holds an integer never yields an identifier, whatever
    its digits: the text of an integer has no point, and the pattern asks
    for its punctuation.  A CNPJ typed into the sheet as a number is not
    found; so is any cell whose text has no point. *)
Theorem extrair_cnpj_inteiro (digito : string -> bool) (z : Z)
    (texto : celula) :
  extrair_cnpj digito (Inteiro z) = []
  /\ (~ In "."%char (list_ascii_of_string (str texto)) ->
      extrair_cnpj digito texto = []).
Proof.
  split; [|apply sem_ponto_sem_cnpj].
  apply sem_ponto_sem_cnpj. cbn [str]. unfold str_int.
  destruct (Z.to_int z) as [d|d]; cbn [DecimalString.NilZero.string_of_int].
  - destruct d; try apply string_of_uint_sem_ponto.
    simpl. intros [H|[]]. discriminate H.
  - cbn [list_ascii_of_string]. intros [H|H]; [discriminate H|].
    revert H. destruct d; try apply string_of_uint_sem_ponto.
    simpl. intros [H|[]]. discriminate H.
Qed.
